(** * SnaPy MinHash: a shallow embedding of [snapy/minhash.py]

    The development follows the layout of the Python module:
    - [Py]      the Python built-ins the module relies on (slicing, [range],
                [str.split], [str.join], [sorted], [heapq]);
    - [Mmh3]    the MurmurHash3 routines behind [mmh3.hash], [mmh3.hash64]
                and [mmh3.hash128];
    - the module itself: [thread_multi_hash], the constructor [__init__],
      [_k_shingles], [_k_smallest_hash] and [_min_hash], over NumPy's
      global generator ([NumpyRandom]);
    - the properties of the signature pipeline, from the built-ins up to
      the constructor. *)

From Stdlib Require Import ZArith Ascii String Lia Permutation Sorted.
From stdpp Require Import base numbers list sorting strings.

Local Open Scope Z_scope.

(** Python [str] values are sequences of characters; the characters used here
    are the code points below 256. *)
Abbreviation str := (list ascii).

(** [lit "abc"] is the Python literal ['abc']. *)
Definition lit (s : string) : str := list_ascii_of_string s.

(* ================================================================== *)
(** * Python built-ins *)
(* ================================================================== *)

Module Py.

(** Adjustment of one slice bound against the length of the sequence, as
    CPython does for a slice of step one: a negative bound counts from the
    end, and every bound is clamped into [0, len]. *)
Definition slice_index (len i : Z) : Z :=
  if i <? 0 then Z.max 0 (i + len) else Z.min i len.

(** [l[start:stop]]; [None] stands for an omitted bound. *)
Definition slice {A} (l : list A) (start stop : option Z) : list A :=
  let n := Z.of_nat (length l) in
  let a := from_option (slice_index n) 0 start in
  let b := from_option (slice_index n) n stop in
  take (Z.to_nat (b - a)) (drop (Z.to_nat a) l).

(** [range(n)] as a list. *)
Definition range (n : Z) : list Z :=
  map Z.of_nat (seq 0 (Z.to_nat n)).

(** [len(l)]. *)
Definition len {A} (l : list A) : Z := Z.of_nat (length l).

(** The characters [str.split()] treats as white space, among the code
    points below 256. *)
Definition isspace (c : ascii) : bool :=
  let n := Z.of_nat (nat_of_ascii c) in
  ((9 <=? n) && (n <=? 13)) || ((28 <=? n) && (n <=? 32))
  || (n =? 133) || (n =? 160).

(** [split_from cur s]: the words of [s], where [cur] holds, reversed, the
    characters of the word being read. *)
Fixpoint split_from (cur : str) (s : str) : list str :=
  match s with
  | [] => match cur with [] => [] | _ => [rev cur] end
  | c :: s' =>
      if isspace c
      then match cur with
           | [] => split_from [] s'
           | _ => rev cur :: split_from [] s'
           end
      else split_from (c :: cur) s'
  end.

(** [s.split()]: the maximal runs of characters that are not white space. *)
Definition split (s : str) : list str := split_from [] s.

(** [sep.join(l)]. *)
Fixpoint join (sep : str) (l : list str) : str :=
  match l with
  | [] => []
  | [x] => x
  | x :: xs => x ++ sep ++ join sep xs
  end.

(** [sorted(l)] on integers. *)
Definition sorted (l : list Z) : list Z := merge_sort Z.le l.

(** [heapq._siftdown(heap, startpos, pos)] moves the item at [pos] up: while
    the parent at [(pos - 1) >> 1] is larger, the parent is written at [pos]
    and [pos] becomes the parent's position; the item is written where the
    loop stops.  [fuel] bounds the number of iterations. *)
Fixpoint siftdown_loop (fuel : nat) (heap : list Z) (newitem : Z)
    (startpos pos : nat) : list Z :=
  match fuel with
  | O => <[pos := newitem]> heap
  | S fuel' =>
      if (startpos <? pos)%nat then
        let parentpos := Nat.shiftr (pos - 1) 1 in
        match heap !! parentpos with
        | Some parent =>
            if newitem <? parent
            then siftdown_loop fuel' (<[pos := parent]> heap) newitem
                   startpos parentpos
            else <[pos := newitem]> heap
        | None => <[pos := newitem]> heap
        end
      else <[pos := newitem]> heap
  end.

Definition siftdown (heap : list Z) (startpos pos : nat) : list Z :=
  match heap !! pos with
  | Some newitem => siftdown_loop pos heap newitem startpos pos
  | None => heap
  end.

(** [heapq.heappush(heap, item)]: append, then sift the new item up. *)
Definition heappush (heap : list Z) (item : Z) : list Z :=
  siftdown (heap ++ [item]) 0 (length heap).

(** [heapq.nsmallest(n, l)]: at most [n] elements, the smallest ones, in
    ascending order; the library documents it as [sorted(l)[:n]], and it
    returns the empty list when [n] is not positive. *)
Definition nsmallest (n : Z) (l : list Z) : list Z :=
  if n <=? 0 then [] else take (Z.to_nat n) (sorted l).

End Py.

(* ================================================================== *)
(** * The hash engine: MurmurHash3 as exposed by [mmh3] *)
(* ================================================================== *)

Module Mmh3.

(** The key is hashed through its UTF-8 encoding: one byte for a code point
    below 128, two bytes for the code points from 128 to 255. *)
Definition utf8_char (c : ascii) : list Z :=
  let n := Z.of_nat (nat_of_ascii c) in
  if n <? 128 then [n]
  else [Z.lor 192 (Z.shiftr n 6); Z.lor 128 (Z.land n 63)].

Definition utf8 (s : str) : list Z := concat (map utf8_char s).

(** A little-endian word read from its bytes. *)
Definition le_word (bs : list Z) : Z :=
  fold_right (fun b acc => b + 256 * acc) 0 bs.

Definition wrap (w x : Z) : Z := Z.land x (Z.ones w).

Definition rotl (w x r : Z) : Z :=
  wrap w (Z.lor (Z.shiftl x r) (Z.shiftr x (w - r))).

(** The value of a [w]-bit word read as a two's complement integer. *)
Definition signed (w x : Z) : Z :=
  if x <? 2 ^ (w - 1) then x else x - 2 ^ w.

(** ** MurmurHash3_x86_32 *)

Definition c1_32 : Z := 0xcc9e2d51.
Definition c2_32 : Z := 0x1b873593.

Definition mix_k32 (k : Z) : Z :=
  wrap 32 (rotl 32 (wrap 32 (k * c1_32)) 15 * c2_32).

Definition fmix32 (h : Z) : Z :=
  let h := Z.lxor h (Z.shiftr h 16) in
  let h := wrap 32 (h * 0x85ebca6b) in
  let h := Z.lxor h (Z.shiftr h 13) in
  let h := wrap 32 (h * 0xc2b2ae35) in
  Z.lxor h (Z.shiftr h 16).

(** The body consumes the key four bytes at a time; what is left (at most
    three bytes) is the tail. *)
Fixpoint body32 (data : list Z) (h : Z) : Z * list Z :=
  match data with
  | b0 :: b1 :: b2 :: b3 :: rest =>
      let h := Z.lxor h (mix_k32 (le_word [b0; b1; b2; b3])) in
      let h := wrap 32 (rotl 32 h 13 * 5 + 0xe6546b64) in
      body32 rest h
  | _ => (h, data)
  end.

Definition murmur3_x86_32 (data : list Z) (seed : Z) : Z :=
  let '(h, tail) := body32 data (wrap 32 seed) in
  let h := match tail with
           | [] => h
           | _ => Z.lxor h (mix_k32 (le_word tail))
           end in
  fmix32 (Z.lxor h (Z.of_nat (length data))).

(** ** MurmurHash3_x64_128 *)

Definition c1_64 : Z := 0x87c37b91114253d5.
Definition c2_64 : Z := 0x4cf5ad432745937f.

Definition mix_k1 (k : Z) : Z :=
  wrap 64 (rotl 64 (wrap 64 (k * c1_64)) 31 * c2_64).

Definition mix_k2 (k : Z) : Z :=
  wrap 64 (rotl 64 (wrap 64 (k * c2_64)) 33 * c1_64).

Definition fmix64 (k : Z) : Z :=
  let k := Z.lxor k (Z.shiftr k 33) in
  let k := wrap 64 (k * 0xff51afd7ed558ccd) in
  let k := Z.lxor k (Z.shiftr k 33) in
  let k := wrap 64 (k * 0xc4ceb9fe1a85ec53) in
  Z.lxor k (Z.shiftr k 33).

(** The body consumes the key sixteen bytes at a time, [fuel] blocks at
    most; what is left (at most fifteen bytes) is the tail. *)
Fixpoint body128 (fuel : nat) (data : list Z) (h1 h2 : Z)
    : Z * Z * list Z :=
  match fuel with
  | O => (h1, h2, data)
  | S fuel' =>
      if (16 <=? length data)%nat then
        let k1 := le_word (take 8 data) in
        let k2 := le_word (take 8 (drop 8 data)) in
        let h1 := Z.lxor h1 (mix_k1 k1) in
        let h1 := wrap 64 (rotl 64 h1 27 + h2) in
        let h1 := wrap 64 (h1 * 5 + 0x52dce729) in
        let h2 := Z.lxor h2 (mix_k2 k2) in
        let h2 := wrap 64 (rotl 64 h2 31 + h1) in
        let h2 := wrap 64 (h2 * 5 + 0x38495ab5) in
        body128 fuel' (drop 16 data) h1 h2
      else (h1, h2, data)
  end.

Definition murmur3_x64_128 (data : list Z) (seed : Z) : Z * Z :=
  let n := Z.of_nat (length data) in
  let '(h1, h2, tail) :=
    body128 (length data) data (wrap 32 seed) (wrap 32 seed) in
  let h2 := match drop 8 tail with
            | [] => h2
            | hi => Z.lxor h2 (mix_k2 (le_word hi))
            end in
  let h1 := match tail with
            | [] => h1
            | _ => Z.lxor h1 (mix_k1 (le_word (take 8 tail)))
            end in
  let h1 := Z.lxor h1 n in
  let h2 := Z.lxor h2 n in
  let h1 := wrap 64 (h1 + h2) in
  let h2 := wrap 64 (h2 + h1) in
  let h1 := fmix64 h1 in
  let h2 := fmix64 h2 in
  let h1 := wrap 64 (h1 + h2) in
  let h2 := wrap 64 (h2 + h1) in
  (h1, h2).

(** ** The three entry points, with the defaults [minhash.py] calls them
    with: a signed 32-bit value, a pair of signed 64-bit values, an unsigned
    128-bit value.  The seed is read as an unsigned 32-bit value. *)

Definition hash (key : str) (seed : Z) : Z :=
  signed 32 (murmur3_x86_32 (utf8 key) seed).

Definition hash64 (key : str) (seed : Z) : Z * Z :=
  let '(h1, h2) := murmur3_x64_128 (utf8 key) seed in
  (signed 64 h1, signed 64 h2).

Definition hash128 (key : str) (seed : Z) : Z :=
  let '(h1, h2) := murmur3_x64_128 (utf8 key) seed in
  Z.lor h1 (Z.shiftl h2 64).

End Mmh3.

(* ================================================================== *)
(** * Exceptions *)
(* ================================================================== *)

(** Every failure of the module is a Python exception; the constructors name
    the place that raises it. *)
Inductive error : Type :=
| UnsupportedNGramType    (* ValueError: only char and term are supported *)
| UnsupportedHashBits     (* ValueError: only 32, 64 and 128 bit hashes *)
| UnsupportedMethod       (* ValueError: only the two hash methods *)
| SeedOutOfRange          (* ValueError of np.random.seed *)
| NegativeDimensions      (* ValueError of np.random.randint, size < 0 *)
| PoolSize                (* ValueError of Pool, fewer than one process *)
| InsufficientText        (* ValueError: n_gram exceeds the text length *)
| PermutationsVsShingles  (* ValueError: N permutations >= n shingles *)
| ZeroSizedIteration      (* ValueError of np.nditer on an empty array *)
| ArgumentTypeError.      (* TypeError: an argument of the wrong type *)

Inductive result (A : Type) : Type :=
| Ok (a : A)
| Raise (e : error).

Arguments Ok {A} a.
Arguments Raise {A} e.

Definition bind {A B} (r : result A) (k : A -> result B) : result B :=
  match r with
  | Ok a => k a
  | Raise e => Raise e
  end.

Notation "'let*' x := r 'in' k" := (bind r (fun x => k))
  (at level 10, x name, r at level 100, k at level 200,
   format "'[v' 'let*'  x  :=  r  'in'  '/' k ']'").

(** [list(gen)] and [map]: the items in order, up to the first exception. *)
Fixpoint collect {A} (items : list (result A)) : result (list A) :=
  match items with
  | [] => Ok []
  | r :: rest => let* a := r in let* l := collect rest in Ok (a :: l)
  end.

(* ================================================================== *)
(** * The module [minhash.py] *)
(* ================================================================== *)

(** A [str] object received as an argument.  A comparison with [==] reads
    its value; a comparison with [is] against a literal holds for one object
    only, the interned one the interpreter shares between all occurrences of
    the literal. *)
Record pystr : Type := { value : string; interned : bool }.

(** The object a literal denotes. *)
Definition literal (s : string) : pystr := {| value := s; interned := true |}.

Definition py_eq (a : pystr) (l : string) : bool := String.eqb (value a) l.

Definition py_is (a : pystr) (l : string) : bool :=
  interned a && String.eqb (value a) l.

(** [self._hash_seeds]: an array of integers, or one integer. *)
Inductive hash_seeds : Type :=
| SeedArray (a : list Z)
| SeedScalar (s : Z).

(** The elements [np.nditer] visits; it refuses an array without elements. *)
Definition nditer (seeds : hash_seeds) : result (list Z) :=
  match seeds with
  | SeedArray [] => Raise ZeroSizedIteration
  | SeedArray a => Ok a
  | SeedScalar s => Ok [s]
  end.

(** The seed argument of the [mmh3] routines is one integer. *)
Definition mmh3_seed (seeds : hash_seeds) : result Z :=
  match seeds with
  | SeedScalar s => Ok s
  | SeedArray _ => Raise ArgumentTypeError
  end.

(** The three-way choice of the hash routine, as both strategies write it. *)
Definition hash_value (hash_bits : Z) (shingle : str) (seed : Z) : Z :=
  if hash_bits =? 64 then fst (Mmh3.hash64 shingle seed)
  else if hash_bits =? 32 then Mmh3.hash shingle seed
  else Mmh3.hash128 shingle seed.

(** One iteration of the inner loop of [thread_multi_hash].  [_min_value] is
    [None] or an integer; [not _min_value] holds for [None] and for [0]. *)
Definition min_step (hash_bits seed : Z) (_min_value : option Z)
    (shingle : str) : option Z :=
  let hash_value := hash_value hash_bits shingle seed in
  match _min_value with
  | None => Some hash_value
  | Some m =>
      if m =? 0 then Some hash_value
      else if m >? hash_value then Some hash_value
      else Some m
  end.

(** The inner loop for one seed: the value appended to the signature. *)
Definition seed_min (hash_bits : Z) (document : list str) (seed : Z)
    : option Z :=
  fold_left (min_step hash_bits seed) document None.

(** [thread_multi_hash(document, hash_seeds, hash_bits)].  The entries of the
    signature are integers, or [None] when the document has no shingle. *)
Definition thread_multi_hash (document : list str) (seeds : hash_seeds)
    (hash_bits : Z) : result (list (option Z)) :=
  let* a := nditer seeds in
  Ok (map (seed_min hash_bits document) a).

(** What [_k_shingles] yields for one text. *)
Inductive yielded : Type :=
| Packed (shingles : list str) (seeds : hash_seeds) (hash_bits : Z)
| Plain (shingles : list str).

(** [thread_multi_hash_packed(args)] unpacks the three components. *)
Definition thread_multi_hash_packed (args : yielded)
    : result (list (option Z)) :=
  match args with
  | Packed document seeds hash_bits =>
      thread_multi_hash document seeds hash_bits
  | Plain _ => Raise ArgumentTypeError
  end.

(** The first argument of the constructor: one text, or a list of texts. *)
Inductive texts : Type :=
| Text (t : str)
| Texts (l : list str).

Record config : Type := {
  n_gram : Z;
  n_gram_type : string;
  permutations : Z;
  hash_bits : Z;
  method : pystr;
  seed : option Z;
  n_jobs : Z
}.

(** The defaults of the constructor. *)
Definition default : config := {|
  n_gram := 9;
  n_gram_type := "char";
  permutations := 100;
  hash_bits := 64;
  method := literal "multi_hash";
  seed := None;
  n_jobs := 1
|}.

(** The body of the [for] loop of [_k_shingles], up to the emptiness test:
    the windows at every offset, trimmed by [trim_overflow]. *)
Definition shingles_of (cfg : config) (text : str) : list str :=
  let trim_overflow := (n_gram cfg - 1) * -1 in
  if String.eqb (n_gram_type cfg) "char" then
    Py.slice
      (map (fun char => Py.slice text (Some char) (Some (char + n_gram cfg)))
           (Py.range (Py.len text)))
      None (Some trim_overflow)
  else
    let terms := Py.split text in
    Py.slice
      (map (fun term =>
              Py.join (lit " ")
                (Py.slice terms (Some term) (Some (term + n_gram cfg))))
           (Py.range (Py.len terms)))
      None (Some trim_overflow).

(** The texts the generator walks: a lone [str] is a corpus of one text. *)
Definition documents (text : texts) : list str :=
  match text with
  | Text t => [t]
  | Texts l => l
  end.

(** One round of the generator: the shingles of [text], refused when there
    are none, alone or packed with the seeds and the hash width. *)
Definition yield_text (cfg : config) (seeds : hash_seeds) (packed : bool)
    (text : str) : result yielded :=
  let shingles := shingles_of cfg text in
  match shingles with
  | [] => Raise InsufficientText
  | _ =>
      if packed then Ok (Packed shingles seeds (hash_bits cfg))
      else Ok (Plain shingles)
  end.

(** [_k_shingles(texts, packed)] is a generator: nothing is computed before
    a consumer asks for an item, and the first exception ends it.  It is read
    as the list of its rounds, which a consumer walks up to the first
    exception. *)
Definition _k_shingles (cfg : config) (seeds : hash_seeds) (text : texts)
    (packed : bool) : list (result yielded) :=
  map (yield_text cfg seeds packed) (documents text).

(** The [for] loop of [_k_smallest_hash]: every shingle is hashed with the
    session seed and pushed on the heap. *)
Fixpoint push_hashes (cfg : config) (seeds : hash_seeds)
    (document : list str) (signature : list Z) : result (list Z) :=
  match document with
  | [] => Ok signature
  | shingle :: rest =>
      let* s := mmh3_seed seeds in
      let hashed_shingle := hash_value (hash_bits cfg) shingle s in
      push_hashes cfg seeds rest (Py.heappush signature hashed_shingle)
  end.

(** [_k_smallest_hash(document)]. *)
Definition _k_smallest_hash (cfg : config) (seeds : hash_seeds)
    (document : list str) : result (list Z) :=
  if Py.len document <=? permutations cfg then Raise PermutationsVsShingles
  else
    let* signature := push_hashes cfg seeds document [] in
    Ok (Py.nsmallest (permutations cfg) signature).

(** The signature matrix: one row per text, the entries being integers (or
    [None], see [thread_multi_hash]). *)
Abbreviation matrix := (list (list (option Z))).

(** The sequential loop of [_min_hash]: the generator is advanced by one
    text, whose signature is computed before the next text is shingled. *)
Fixpoint k_smallest_loop (cfg : config) (seeds : hash_seeds)
    (shingles : list (result yielded)) : result matrix :=
  match shingles with
  | [] => Ok []
  | round :: rest =>
      let* document := round in
      let* signature :=
        match document with
        | Plain d => _k_smallest_hash cfg seeds d
        | Packed _ _ _ => Raise ArgumentTypeError
        end in
      let* signatures := k_smallest_loop cfg seeds rest in
      Ok (map Some signature :: signatures)
  end.

(** [np.array(signatures)].  Both branches of [_min_hash] pass it a list of
    rows of one length; the array holds these rows in their order.  What the
    array adds to the list is its [shape]. *)
Definition np_array (signatures : list (list (option Z))) : matrix :=
  signatures.

(** [.shape] of an array built by [np_array]: [(0,)] for the empty list,
    which NumPy turns into a one-dimensional array without elements, and
    [(rows, columns)] for rows of one length. *)
Definition shape (m : matrix) : list Z :=
  match m with
  | [] => [0]
  | row :: _ => [Py.len m; Py.len row]
  end.

(** [_min_hash()].  [Pool(n_jobs)] refuses fewer than one process;
    [pool.map] first turns the generator into a list, then returns the
    results in the order of the items, whichever worker computed them.
    Either branch returns [np.array(signatures)]. *)
Definition _min_hash (cfg : config) (seeds : hash_seeds)
    (shingles : list (result yielded)) : result matrix :=
  if py_is (method cfg) "multi_hash" then
    if n_jobs cfg <? 1 then Raise PoolSize
    else
      let* items := collect shingles in
      let* signatures := collect (map thread_multi_hash_packed items) in
      Ok (np_array signatures)
  else
    let* signatures := k_smallest_loop cfg seeds shingles in
    Ok (np_array signatures).

(** The three membership tests of the constructor. *)
Definition validate (cfg : config) : result unit :=
  if negb (String.eqb (n_gram_type cfg) "char"
           || String.eqb (n_gram_type cfg) "term")
  then Raise UnsupportedNGramType
  else if negb ((hash_bits cfg =? 32) || (hash_bits cfg =? 64)
                || (hash_bits cfg =? 128))
  then Raise UnsupportedHashBits
  else if negb (py_eq (method cfg) "multi_hash"
                || py_eq (method cfg) "k_smallest_values")
  then Raise UnsupportedMethod
  else Ok tt.

(** The attributes of a constructed object that the pipeline produces. *)
Record MinHash : Type := {
  _hash_seeds : hash_seeds;
  signatures : matrix
}.

(** ** The constructor, over NumPy's global generator *)

(** [np.random] keeps one generator for the whole process.  Its algorithm is
    not part of this module: a state installed by [np.random.seed], and a
    draw of one integer in [1, 100_000_000) that advances the state. *)
Class NumpyRandom (G : Type) : Type := {
  seed_state : Z -> G;
  next_int : G -> Z * G
}.

Section Constructor.

Context {G : Type} `{NumpyRandom G}.

(** [np.random.seed(s)] accepts the integers from 0 to 2^32 - 1. *)
Definition np_random_seed (s : Z) (g : G) : result unit * G :=
  if (s <? 0) || (2 ^ 32 - 1 <? s) then (Raise SeedOutOfRange, g)
  else (Ok tt, seed_state s).

(** [n] successive draws. *)
Fixpoint draws (n : nat) (g : G) : list Z * G :=
  match n with
  | O => ([], g)
  | S n' =>
      let '(x, g1) := next_int g in
      let '(xs, g2) := draws n' g1 in
      (x :: xs, g2)
  end.

(** [np.random.randint(low=1, high=100_000_000, size=n)]. *)
Definition np_random_randint_size (n : Z) (g : G)
    : result (list Z) * G :=
  if n <? 0 then (Raise NegativeDimensions, g)
  else let '(a, g') := draws (Z.to_nat n) g in (Ok a, g').

(** The statements of the constructor that touch the generator: the seeding
    under [if seed:], which [None] and [0] do not pass, then the draw of the
    hash seeds. *)
Definition draw_hash_seeds (cfg : config) (g : G)
    : result hash_seeds * G :=
  let '(seeded, g1) :=
    match seed cfg with
    | Some s => if s =? 0 then (Ok tt, g) else np_random_seed s g
    | None => (Ok tt, g)
    end in
  match seeded with
  | Raise e => (Raise e, g1)
  | Ok _ =>
      if py_eq (method cfg) "multi_hash" then
        let '(r, g2) := np_random_randint_size (permutations cfg) g1 in
        (let* a := r in Ok (SeedArray a), g2)
      else
        let '(s, g2) := next_int g1 in (Ok (SeedScalar s), g2)
  end.

(** [MinHash(text, n_gram, n_gram_type, permutations, hash_bits, method,
    seed, n_jobs)], run from the generator state [g]: the object or the
    exception, and the state the generator is left in. *)
Definition __init__ (text : texts) (cfg : config) (g : G)
    : result MinHash * G :=
  match validate cfg with
  | Raise e => (Raise e, g)
  | Ok _ =>
      let '(drawn, g') := draw_hash_seeds cfg g in
      (let* seeds := drawn in
       let shingles :=
         _k_shingles cfg seeds text (py_is (method cfg) "multi_hash") in
       let* signatures := _min_hash cfg seeds shingles in
       Ok {| _hash_seeds := seeds; signatures := signatures |},
       g')
  end.

(** The state the generator is in when the hash seeds are drawn. *)
Definition seeded_state (cfg : config) (g : G) : G :=
  match seed cfg with
  | Some s => if s =? 0 then g else seed_state s
  | None => g
  end.

End Constructor.

(* ================================================================== *)
(** * Vocabulary of the properties *)
(* ================================================================== *)

(** [m] is the least element of [l]. *)
Definition is_min (m : Z) (l : list Z) : Prop :=
  m ∈ l /\ forall x, x ∈ l -> m <= x.

(** What the inner loop of [thread_multi_hash] keeps, whatever the hash values are: the running value
    is one of the values seen; it is their minimum as soon as one of them
    is negative, and as long as all of them are positive. *)
Definition loop_invariant (m : Z) (seen : list Z) : Prop :=
  m ∈ seen
  /\ ((exists x, x ∈ seen /\ x < 0) -> is_min m seen)
  /\ ((forall x, x ∈ seen -> 0 < x) -> is_min m seen).

(** The integers of the width selected by [hash_bits]: signed 64-bit
    values for 64, signed 32-bit values for 32, unsigned 128-bit values for
    anything else. *)
Definition in_width (hash_bits z : Z) : Prop :=
  if hash_bits =? 64 then - 2 ^ 63 <= z < 2 ^ 63
  else if hash_bits =? 32 then - 2 ^ 31 <= z < 2 ^ 31
  else 0 <= z < 2 ^ 128.

(** The hash values of a document under one seed, in the order of the
    shingles. *)
Definition hashes (hash_bits : Z) (document : list str) (seed : Z) : list Z :=
  map (fun shingle => hash_value hash_bits shingle seed) document.

(** The window of [n] elements that starts at offset [i]. *)
Definition window {A} (l : list A) (n : Z) (i : Z) : list A :=
  take (Z.to_nat n) (drop (Z.to_nat i) l).

(** The signature of one text under the strategy [_min_hash] runs. *)
Definition signature_of (cfg : config) (seeds : hash_seeds) (text : str)
    : result (list (option Z)) :=
  if py_is (method cfg) "multi_hash" then
    thread_multi_hash (shingles_of cfg text) seeds (hash_bits cfg)
  else
    let* signature := _k_smallest_hash cfg seeds (shingles_of cfg text) in
    Ok (map Some signature).

(** [seed] is absent, or an integer [np.random.seed] accepts. *)
Definition seed_in_range (cfg : config) : Prop :=
  match seed cfg with
  | Some s => 0 <= s <= 2 ^ 32 - 1
  | None => True
  end.

(** A configuration that gets through the statements of the constructor
    that come before the shingling: its three string and width options are
    supported, its seed is one NumPy accepts, and under the multi-hash method
    the array of seeds has a size and the pool has a worker. *)
Definition well_configured (cfg : config) : Prop :=
  validate cfg = Ok tt
  /\ seed_in_range cfg
  /\ (py_eq (method cfg) "multi_hash" = true -> 0 <= permutations cfg)
  /\ (py_is (method cfg) "multi_hash" = true -> 1 <= n_jobs cfg).

(** ** Running the constructor *)

(** A linear congruential generator stands for NumPy's when the constructor
    is run on concrete inputs: every state gives a draw in
    [1, 100_000_000) and a next state. *)
Definition lcg_next (g : Z) : Z * Z :=
  let g' := (g * 1103515245 + 12345) mod 2 ^ 31 in
  (1 + g' mod 99999999, g').

#[export] Instance lcg : NumpyRandom Z :=
  {| seed_state s := s; next_int := lcg_next |}.

(** The configuration [cfg] with another [seed] argument. *)
Definition with_seed (cfg : config) (s : option Z) : config :=
  {| n_gram := n_gram cfg;
     n_gram_type := n_gram_type cfg;
     permutations := permutations cfg;
     hash_bits := hash_bits cfg;
     method := method cfg;
     seed := s;
     n_jobs := n_jobs cfg |}.

(** Two constructions in a row: the second starts from the generator state
    the first one left. *)
Definition construct_twice {G : Type} `{NumpyRandom G} (text : texts)
    (cfg : config) (g : G) : result MinHash * result MinHash :=
  let '(first, g1) := __init__ text cfg g in
  let '(second, _) := __init__ text cfg g1 in
  (first, second).

(* ================================================================== *)
(** * The hash engine against published values *)
(* ================================================================== *)

(** The published values of the three routines. *)
Example mmh3_hash_foo : Mmh3.hash (lit "foo") 0 = -156908512.
Proof. vm_compute. reflexivity. Qed.

Example mmh3_hash_fox :
  Mmh3.murmur3_x86_32
    (Mmh3.utf8 (lit "The quick brown fox jumps over the lazy dog")) 0
  = 0x2e4ff723.
Proof. vm_compute. reflexivity. Qed.

Example mmh3_hash64_foo :
  Mmh3.hash64 (lit "foo") 0 = (-2129773440516405919, 9128664383759220103).
Proof. vm_compute. reflexivity. Qed.

Example mmh3_hash128_foo :
  Mmh3.hash128 (lit "foo") 42 = 215966891540331383248189432718888555506.
Proof. vm_compute. reflexivity. Qed.

Example mmh3_hash128_fox :
  Mmh3.murmur3_x64_128
    (Mmh3.utf8 (lit "The quick brown fox jumps over the lazy dog")) 0
  = (0xe34bbc7bbc071b6c, 0x7a433ca9c49a9347).
Proof. vm_compute. reflexivity. Qed.

(* ================================================================== *)
(** * Properties of the built-ins *)
(* ================================================================== *)

Section PyFacts.

Lemma range_length (n : Z) : length (Py.range n) = Z.to_nat n.
Proof. unfold Py.range. by rewrite length_map, length_seq. Qed.

Lemma range_lookup (n : Z) (i : nat) :
  (i < Z.to_nat n)%nat -> Py.range n !! i = Some (Z.of_nat i).
Proof.
  intros Hi. unfold Py.range.
  rewrite list_lookup_fmap, lookup_seq_lt by done. reflexivity.
Qed.

(** A slice whose bounds lie inside the sequence is the window they
    delimit. *)
Lemma slice_inside {A} (l : list A) (a b : Z) :
  0 <= a -> a <= b -> b <= Py.len l ->
  Py.slice l (Some a) (Some b)
  = take (Z.to_nat (b - a)) (drop (Z.to_nat a) l).
Proof.
  intros Ha Hab Hb. unfold Py.slice, Py.slice_index, Py.len in *. simpl.
  destruct (Z.ltb_spec a 0); [lia|].
  destruct (Z.ltb_spec b 0); [lia|].
  by rewrite !Z.min_l by lia.
Qed.

(** [l[:-k]] drops the last [k] elements, when [k] is positive. *)
Lemma slice_trim {A} (l : list A) (k : Z) :
  0 < k ->
  Py.slice l None (Some (- k)) = take (Z.to_nat (Py.len l - k)) l.
Proof.
  intros Hk. unfold Py.slice, Py.slice_index, Py.len. simpl.
  destruct (Z.ltb_spec (- k) 0); [|lia].
  f_equal. lia.
Qed.

(** [l[:0]] is empty: the trimming bound of a shingle width of one. *)
Lemma slice_to_zero {A} (l : list A) : Py.slice l None (Some 0) = [].
Proof.
  unfold Py.slice, Py.slice_index. simpl.
  destruct (Z.of_nat (length l)); reflexivity.
Qed.

(** ** [sorted] *)

Lemma sorted_Permutation (l : list Z) : Py.sorted l ≡ₚ l.
Proof. apply merge_sort_Permutation. Qed.

Lemma sorted_StronglySorted (l : list Z) : StronglySorted Z.le (Py.sorted l).
Proof. apply StronglySorted_merge_sort; apply _. Qed.

Lemma sorted_length (l : list Z) : length (Py.sorted l) = length l.
Proof. apply Permutation_length, sorted_Permutation. Qed.

(** [sorted] depends on the elements only, not on their order. *)
Lemma sorted_proper (l k : list Z) : l ≡ₚ k -> Py.sorted l = Py.sorted k.
Proof.
  intros Hlk. apply (StronglySorted_unique Z.le).
  - apply sorted_StronglySorted.
  - apply sorted_StronglySorted.
  - by rewrite !sorted_Permutation.
Qed.

(** ** [heapq] *)

(** The sift loop keeps a hole at [pos]; with the item written into the
    hole, the heap always holds the same elements. *)
Lemma siftdown_loop_Permutation (fuel : nat) :
  forall (heap : list Z) (newitem : Z) (startpos pos : nat),
    (pos < length heap)%nat ->
    Py.siftdown_loop fuel heap newitem startpos pos
    ≡ₚ <[pos := newitem]> heap.
Proof.
  induction fuel as [|fuel IH]; intros heap newitem startpos pos Hpos;
    cbn [Py.siftdown_loop]; [done|].
  destruct (startpos <? pos)%nat eqn:Hlt; [|done].
  apply Nat.ltb_lt in Hlt.
  set (parentpos := Nat.shiftr (pos - 1) 1).
  assert (parentpos < pos)%nat as Hpp.
  { subst parentpos. rewrite Nat.shiftr_div_pow2.
    change (2 ^ 1)%nat with 2%nat.
    apply Nat.Div0.div_lt_upper_bound. lia. }
  destruct (heap !! parentpos) as [parent|] eqn:Hparent; [|done].
  destruct (newitem <? parent); [|done].
  rewrite IH by (rewrite length_insert; lia).
  pose proof (Permutation_insert_swap (<[pos := newitem]> heap)
                pos parentpos newitem parent) as Hswap.
  rewrite list_insert_insert_eq in Hswap. apply Hswap.
  - by apply list_lookup_insert_eq.
  - rewrite list_lookup_insert_ne by lia. done.
Qed.

Lemma heappush_Permutation (heap : list Z) (item : Z) :
  Py.heappush heap item ≡ₚ item :: heap.
Proof.
  unfold Py.heappush, Py.siftdown.
  assert ((heap ++ [item]) !! length heap = Some item) as Hlast.
  { rewrite lookup_app_r by lia. by rewrite Nat.sub_diag. }
  rewrite Hlast, siftdown_loop_Permutation
    by (rewrite length_app; simpl; lia).
  rewrite list_insert_id by done.
  by rewrite (comm (++)).
Qed.

Lemma nsmallest_length (n : Z) (l : list Z) :
  n < Py.len l -> length (Py.nsmallest n l) = Z.to_nat n.
Proof.
  intros Hn. unfold Py.nsmallest, Py.len in *.
  destruct (Z.leb_spec n 0); [simpl; lia|].
  rewrite length_take, sorted_length. lia.
Qed.

End PyFacts.

(* ================================================================== *)
(** * The multi-hash strategy *)
(* ================================================================== *)

Section MultiHash.

Variable hash_bits : Z.

(** The inner loop always leaves an integer once it has seen a shingle. *)
Lemma fold_min_step_Some (seed : Z) (document : list str) (m : Z) :
  is_Some (fold_left (min_step hash_bits seed) document (Some m)).
Proof.
  revert m. induction document as [|shingle rest IH]; intros m; simpl.
  - by eexists.
  - destruct (m =? 0); [apply IH|].
    destruct (m >? _); apply IH.
Qed.

Lemma seed_min_Some (seed : Z) (document : list str) :
  document <> [] -> is_Some (seed_min hash_bits document seed).
Proof.
  destruct document as [|shingle rest]; [done|]. intros _.
  unfold seed_min. simpl. apply fold_min_step_Some.
Qed.

(** As long as no hash value is zero, the loop keeps the running minimum. *)
Lemma fold_min_step_min (seed : Z) (document : list str) :
  forall (m : Z) (seen : list Z),
    is_min m seen -> m <> 0 ->
    Forall (fun h => h <> 0) (hashes hash_bits document seed) ->
    exists m',
      fold_left (min_step hash_bits seed) document (Some m) = Some m'
      /\ is_min m' (seen ++ hashes hash_bits document seed).
Proof.
  induction document as [|shingle rest IH]; intros m seen Hmin Hm Hnz; simpl.
  - exists m. by rewrite app_nil_r.
  - apply Forall_cons in Hnz as [Hh Hnz].
    set (h := hash_value hash_bits shingle seed) in *.
    destruct (Z.eqb_spec m 0) as [|_]; [done|].
    destruct Hmin as [Hin Hle].
    assert (forall m0, is_min m0 (seen ++ [h]) -> m0 <> 0 ->
            exists m', fold_left (min_step hash_bits seed) rest (Some m0)
                       = Some m'
              /\ is_min m' (seen ++ h :: hashes hash_bits rest seed)) as Hnext.
    { intros m0 Hm0 Hm0nz.
      destruct (IH m0 (seen ++ [h]) Hm0 Hm0nz Hnz) as (m' & Hfold & Hmin').
      exists m'. split; [done|]. by rewrite <- app_assoc in Hmin'. }
    destruct (Z.gtb_spec m h).
    + apply Hnext; [|done]. split.
      * apply elem_of_app. right. by apply list_elem_of_singleton.
      * intros x [Hx|Hx%list_elem_of_singleton]%elem_of_app;
          [specialize (Hle x Hx)|]; lia.
    + apply Hnext; [|done]. split.
      * apply elem_of_app. by left.
      * intros x [Hx|Hx%list_elem_of_singleton]%elem_of_app;
          [by apply Hle|lia].
Qed.

(** The entry for one seed is the least hash value of the document, when no
    shingle hashes to zero under that seed. *)
Lemma seed_min_minimum (seed : Z) (document : list str) :
  document <> [] ->
  Forall (fun h => h <> 0) (hashes hash_bits document seed) ->
  exists m,
    seed_min hash_bits document seed = Some m
    /\ is_min m (hashes hash_bits document seed).
Proof.
  destruct document as [|shingle rest]; [done|]. intros _ Hnz.
  unfold seed_min. simpl.
  pose proof Hnz as Hnz'. apply Forall_cons in Hnz' as [Hh Hrest].
  destruct (fold_min_step_min seed rest (hash_value hash_bits shingle seed)
              [hash_value hash_bits shingle seed]) as (m & Hfold & Hmin);
    [|done|done|by exists m].
  split; [by apply list_elem_of_singleton|].
  intros x Hx%list_elem_of_singleton. lia.
Qed.

(** On an array with at least one seed, the strategy returns one entry per
    seed, in the order of the seeds. *)
Lemma thread_multi_hash_array (document : list str) (a : list Z) :
  a <> [] ->
  thread_multi_hash document (SeedArray a) hash_bits
  = Ok (map (seed_min hash_bits document) a).
Proof. by destruct a. Qed.

(** The only exception of the strategy is the one of [np.nditer]. *)
Lemma thread_multi_hash_Raise (document : list str) (seeds : hash_seeds)
    (e : error) :
  thread_multi_hash document seeds hash_bits = Raise e ->
  e = ZeroSizedIteration /\ seeds = SeedArray [].
Proof.
  unfold thread_multi_hash.
  destruct seeds as [[|s a]|s]; simpl; intros Heq; by simplify_eq.
Qed.

End MultiHash.

(* ================================================================== *)
(** * The k-smallest-values strategy *)
(* ================================================================== *)

Section KSmallest.

Variable cfg : config.

(** With the single session seed, the loop pushes the hash value of every
    shingle: the heap holds exactly these values, in the heap's order. *)
Lemma push_hashes_scalar (s : Z) (document : list str) :
  forall signature : list Z,
    exists heap,
      push_hashes cfg (SeedScalar s) document signature = Ok heap
      /\ heap ≡ₚ hashes (hash_bits cfg) document s ++ signature.
Proof.
  induction document as [|shingle rest IH]; intros signature; simpl.
  - by exists signature.
  - destruct (IH (Py.heappush signature
                    (hash_value (hash_bits cfg) shingle s)))
      as (heap & Hpush & Hperm).
    exists heap. split; [done|].
    rewrite Hperm, heappush_Permutation.
    by rewrite Permutation_middle.
Qed.

(** Whatever the seeds are, a loop that ends has pushed one value per
    shingle. *)
Lemma push_hashes_length (seeds : hash_seeds) (document : list str) :
  forall signature heap : list Z,
    push_hashes cfg seeds document signature = Ok heap ->
    length heap = (length document + length signature)%nat.
Proof.
  induction document as [|shingle rest IH]; intros signature heap; simpl.
  - intros [= <-]. done.
  - destruct (mmh3_seed seeds) as [s|e]; simpl; [|done].
    intros Hpush%IH. rewrite Hpush.
    rewrite (Permutation_length (heappush_Permutation _ _)). simpl. lia.
Qed.

(** The loop itself never raises the configuration error. *)
Lemma push_hashes_Raise (seeds : hash_seeds) (document : list str) :
  forall (signature : list Z) (e : error),
    push_hashes cfg seeds document signature = Raise e ->
    e = ArgumentTypeError.
Proof.
  induction document as [|shingle rest IH]; intros signature e; simpl.
  - done.
  - destruct seeds as [a|s]; simpl; [by intros [= <-]|]. apply IH.
Qed.

(** The configuration error is raised for exactly the documents that have
    no more shingles than [permutations]. *)
Lemma k_smallest_hash_Raise_iff (seeds : hash_seeds) (document : list str) :
  _k_smallest_hash cfg seeds document = Raise PermutationsVsShingles
  <-> Py.len document <= permutations cfg.
Proof.
  unfold _k_smallest_hash.
  destruct (Z.leb_spec (Py.len document) (permutations cfg)) as [Hle|Hgt].
  - done.
  - split; [|lia].
    destruct (push_hashes cfg seeds document []) as [heap|e] eqn:Hpush;
      simpl; [done|].
    apply push_hashes_Raise in Hpush. by intros [= ->].
Qed.

(** A signature that is returned has [permutations] entries (none when
    [permutations] is negative). *)
Lemma k_smallest_hash_length (seeds : hash_seeds) (document : list str)
    (signature : list Z) :
  _k_smallest_hash cfg seeds document = Ok signature ->
  length signature = Z.to_nat (permutations cfg).
Proof.
  unfold _k_smallest_hash.
  destruct (Z.leb_spec (Py.len document) (permutations cfg)) as [Hle|Hgt];
    [done|].
  destruct (push_hashes cfg seeds document []) as [heap|e] eqn:Hpush;
    simpl; [|done].
  intros [= <-]. apply push_hashes_length in Hpush.
  apply nsmallest_length. unfold Py.len in *. simpl in Hpush. lia.
Qed.

(** With the single session seed, the signature of a document with more
    shingles than [permutations] is the prefix of the sorted hash values. *)
Lemma k_smallest_hash_scalar (s : Z) (document : list str) :
  permutations cfg < Py.len document ->
  _k_smallest_hash cfg (SeedScalar s) document
  = Ok (Py.nsmallest (permutations cfg)
          (hashes (hash_bits cfg) document s)).
Proof.
  intros Hgt. unfold _k_smallest_hash.
  destruct (Z.leb_spec (Py.len document) (permutations cfg)); [lia|].
  destruct (push_hashes_scalar s document []) as (heap & -> & Hperm).
  simpl. rewrite app_nil_r in Hperm.
  unfold Py.nsmallest. by rewrite (sorted_proper _ _ Hperm).
Qed.

End KSmallest.

(* ================================================================== *)
(** * The shingle extractor *)
(* ================================================================== *)

Section Shingles.

Lemma window_length {A} (l : list A) (n i : Z) :
  0 <= i -> 0 <= n -> i + n <= Py.len l ->
  Py.len (window l n i) = n.
Proof.
  intros Hi Hn Hin. unfold window, Py.len in *.
  rewrite length_take, length_drop. lia.
Qed.

Lemma take_range_le (k n : Z) :
  k <= n -> take (Z.to_nat k) (Py.range n) = Py.range k.
Proof.
  intros Hk. unfold Py.range.
  rewrite <- fmap_take, take_seq. do 2 f_equal. lia.
Qed.

Lemma elem_of_range (n i : Z) : i ∈ Py.range n -> 0 <= i < n.
Proof.
  unfold Py.range. intros (k & -> & Hk)%list_elem_of_fmap.
  apply elem_of_seq in Hk. lia.
Qed.

(** The comprehension of [_k_shingles] followed by its trimming, for a
    width of at least two: the windows that fit, in the order of their
    offsets.  [g] is what is done with a window: nothing in character mode,
    a join in term mode. *)
Lemma windows_trimmed {A B} (g : list A -> B) (l : list A) (n : Z) :
  2 <= n ->
  Py.slice
    (map (fun i => g (Py.slice l (Some i) (Some (i + n))))
         (Py.range (Py.len l)))
    None (Some ((n - 1) * -1))
  = map (fun i => g (window l n i)) (Py.range (Py.len l - n + 1)).
Proof.
  intros Hn.
  replace ((n - 1) * -1) with (- (n - 1)) by lia.
  rewrite slice_trim by lia.
  unfold Py.len at 1. rewrite length_map, range_length.
  rewrite <- fmap_take.
  replace (Z.of_nat (Z.to_nat (Py.len l)) - (n - 1))
    with (Py.len l - n + 1) by (unfold Py.len; lia).
  rewrite take_range_le by lia.
  apply list_fmap_ext. intros k i Hi%list_elem_of_lookup_2%elem_of_range.
  unfold window. rewrite slice_inside by lia.
  by replace (i + n - i) with n by lia.
Qed.

Variable cfg : config.

Lemma shingles_of_char (text : str) :
  n_gram_type cfg = "char"%string -> 2 <= n_gram cfg ->
  shingles_of cfg text
  = map (window text (n_gram cfg))
        (Py.range (Py.len text - n_gram cfg + 1)).
Proof.
  intros Htype Hn. unfold shingles_of. rewrite Htype. simpl.
  by rewrite (windows_trimmed (fun w => w)).
Qed.

Lemma shingles_of_term (text : str) :
  n_gram_type cfg <> "char"%string -> 2 <= n_gram cfg ->
  shingles_of cfg text
  = map (fun i => Py.join (lit " ") (window (Py.split text) (n_gram cfg) i))
        (Py.range (Py.len (Py.split text) - n_gram cfg + 1)).
Proof.
  intros Htype%String.eqb_neq Hn. unfold shingles_of. rewrite Htype.
  by rewrite (windows_trimmed (Py.join (lit " "))).
Qed.

(** A width of one trims with [[:0]]: no shingle is left, in either mode. *)
Lemma shingles_of_width_one (text : str) :
  n_gram cfg = 1 -> shingles_of cfg text = [].
Proof.
  intros Hn. unfold shingles_of. rewrite Hn. simpl.
  destruct (String.eqb _ _); apply slice_to_zero.
Qed.

(** For a width of at least two, character mode yields the
    [len(text) - n_gram + 1] windows of [n_gram] characters, by increasing
    offset. *)
Lemma char_shingles (text : str) :
  n_gram_type cfg = "char"%string -> 2 <= n_gram cfg ->
  n_gram cfg <= Py.len text ->
  Py.len (shingles_of cfg text) = Py.len text - n_gram cfg + 1
  /\ forall i : nat,
       Z.of_nat i < Py.len text - n_gram cfg + 1 ->
       exists shingle,
         shingles_of cfg text !! i = Some shingle
         /\ shingle = window text (n_gram cfg) (Z.of_nat i)
         /\ Py.len shingle = n_gram cfg.
Proof.
  intros Htype Hn Hlen. rewrite shingles_of_char by done. split.
  - unfold Py.len at 1. rewrite length_map, range_length. lia.
  - intros i Hi. eexists. split; [|split; [reflexivity|]].
    + rewrite list_lookup_fmap, range_lookup by lia. reflexivity.
    + apply window_length; lia.
Qed.

(** Term mode, likewise, over the terms of the text: every shingle joins
    [n_gram] consecutive terms. *)
Lemma term_shingles (text : str) :
  n_gram_type cfg <> "char"%string -> 2 <= n_gram cfg ->
  n_gram cfg <= Py.len (Py.split text) ->
  Py.len (shingles_of cfg text) = Py.len (Py.split text) - n_gram cfg + 1
  /\ forall i : nat,
       Z.of_nat i < Py.len (Py.split text) - n_gram cfg + 1 ->
       exists terms,
         shingles_of cfg text !! i = Some (Py.join (lit " ") terms)
         /\ terms = window (Py.split text) (n_gram cfg) (Z.of_nat i)
         /\ Py.len terms = n_gram cfg.
Proof.
  intros Htype Hn Hlen. rewrite shingles_of_term by done. split.
  - unfold Py.len at 1. rewrite length_map, range_length. lia.
  - intros i Hi. eexists. split; [|split; [reflexivity|]].
    + rewrite list_lookup_fmap, range_lookup by lia. reflexivity.
    + apply window_length; lia.
Qed.

End Shingles.

(* ================================================================== *)
(** * The constructor *)
(* ================================================================== *)

Section Collect.

Context {A B : Type}.

Lemma collect_fmap_Ok (f : A -> result B) (xs : list A) (l : list B) :
  collect (map f xs) = Ok l -> Forall2 (fun x y => f x = Ok y) xs l.
Proof.
  revert l. induction xs as [|x xs IH]; intros l; simpl.
  - intros [= <-]. constructor.
  - destruct (f x) as [y|e] eqn:Hfx; simpl; [|done].
    destruct (collect (map f xs)) as [l'|e]; simpl; [|done].
    intros [= <-]. constructor; [done|by apply IH].
Qed.

Lemma collect_fmap_Raise (f : A -> result B) (xs : list A) (e : error) :
  collect (map f xs) = Raise e -> exists x, x ∈ xs /\ f x = Raise e.
Proof.
  induction xs as [|x xs IH]; simpl; [done|].
  destruct (f x) as [y|e'] eqn:Hfx; simpl.
  - destruct (collect (map f xs)) as [l'|e'']; simpl; [done|].
    intros [= ->]. destruct IH as (x' & Hin & Hx'); [done|].
    exists x'. split; [by right|done].
  - intros [= ->]. exists x. split; [by left|done].
Qed.

End Collect.

Section Pipeline.

Variable cfg : config.

(** The array of [_min_hash] holds the rows of the list it is built from. *)
Lemma min_hash_rows (c : config) (seeds : hash_seeds)
    (shingles : list (result yielded)) :
  _min_hash c seeds shingles
  = if py_is (method c) "multi_hash" then
      if n_jobs c <? 1 then Raise PoolSize
      else
        let* items := collect shingles in
        collect (map thread_multi_hash_packed items)
    else k_smallest_loop c seeds shingles.
Proof.
  unfold _min_hash, np_array.
  destruct (py_is _ _).
  - destruct (n_jobs c <? 1); [done|].
    destruct (collect shingles) as [items|e]; simpl; [|done].
    by destruct (collect _).
  - by destruct (k_smallest_loop _ _ _).
Qed.

Lemma py_is_eq (a : pystr) (l : string) : py_is a l = true -> py_eq a l = true.
Proof. unfold py_is, py_eq. by intros [_ ?]%andb_prop. Qed.

Lemma yield_text_Ok (seeds : hash_seeds) (packed : bool) (text : str)
    (item : yielded) :
  yield_text cfg seeds packed text = Ok item ->
  shingles_of cfg text <> []
  /\ item = if packed
            then Packed (shingles_of cfg text) seeds (hash_bits cfg)
            else Plain (shingles_of cfg text).
Proof.
  unfold yield_text. destruct (shingles_of cfg text) as [|sh shs]; [done|].
  destruct packed; by intros [= <-].
Qed.

Lemma yield_text_nonempty (seeds : hash_seeds) (packed : bool) (text : str) :
  shingles_of cfg text <> [] ->
  yield_text cfg seeds packed text
  = Ok (if packed
        then Packed (shingles_of cfg text) seeds (hash_bits cfg)
        else Plain (shingles_of cfg text)).
Proof.
  unfold yield_text. destruct (shingles_of cfg text) as [|sh shs]; [done|].
  by destruct packed.
Qed.

Lemma yield_text_empty (seeds : hash_seeds) (packed : bool) (text : str) :
  shingles_of cfg text = [] ->
  yield_text cfg seeds packed text = Raise InsufficientText.
Proof. unfold yield_text. by intros ->. Qed.

Lemma yield_text_Raise (seeds : hash_seeds) (packed : bool) (text : str)
    (e : error) :
  yield_text cfg seeds packed text = Raise e ->
  e = InsufficientText /\ shingles_of cfg text = [].
Proof.
  unfold yield_text. destruct (shingles_of cfg text) as [|sh shs].
  - by intros [= <-].
  - by destruct packed.
Qed.

(** The sequential loop, when it ends: every text was shingled, and every
    row is the k-smallest signature of its text. *)
Lemma k_smallest_loop_Ok (seeds : hash_seeds) (texts : list str) :
  forall m : matrix,
    k_smallest_loop cfg seeds (map (yield_text cfg seeds false) texts) = Ok m ->
    Forall2
      (fun text row =>
         shingles_of cfg text <> []
         /\ exists signature,
              _k_smallest_hash cfg seeds (shingles_of cfg text) = Ok signature
              /\ row = map Some signature)
      texts m.
Proof.
  induction texts as [|text rest IH]; intros m; simpl.
  - intros [= <-]. constructor.
  - destruct (yield_text cfg seeds false text) as [item|e] eqn:Hitem;
      simpl; [|done].
    apply yield_text_Ok in Hitem as [Hne ->].
    destruct (_k_smallest_hash cfg seeds (shingles_of cfg text))
      as [signature|e] eqn:Hsig; simpl; [|done].
    destruct (k_smallest_loop cfg seeds _) as [m'|e] eqn:Hloop;
      simpl; [|done].
    intros [= <-]. constructor; [|by apply IH].
    split; [done|]. by exists signature.
Qed.

(** With the single session seed and texts that all have shingles, the
    sequential loop raises the configuration error exactly when some text has
    no more shingles than [permutations]. *)
Lemma k_smallest_loop_Raise_iff (s : Z) (texts : list str) :
  Forall (fun t => shingles_of cfg t <> []) texts ->
  k_smallest_loop cfg (SeedScalar s)
    (map (yield_text cfg (SeedScalar s) false) texts)
  = Raise PermutationsVsShingles
  <-> Exists (fun t => Py.len (shingles_of cfg t) <= permutations cfg) texts.
Proof.
  induction texts as [|text rest IH]; intros Hne; simpl.
  - split; [done|]. by intros ?%Exists_nil.
  - apply Forall_cons in Hne as [Htext Hrest].
    rewrite yield_text_nonempty by done. simpl.
    rewrite Exists_cons.
    destruct (Z.leb_spec (Py.len (shingles_of cfg text)) (permutations cfg))
      as [Hle|Hgt].
    + pose proof Hle as Hraise.
      apply (k_smallest_hash_Raise_iff cfg (SeedScalar s)) in Hraise.
      rewrite Hraise. simpl. split; [by left|done].
    + rewrite k_smallest_hash_scalar by done. simpl.
      destruct (k_smallest_loop cfg (SeedScalar s) _) as [m|e] eqn:Hloop;
        simpl.
      * split; [done|]. intros [?|Hex]; [lia|].
        by apply IH in Hex.
      * split.
        -- intros [= ->]. right. by apply IH.
        -- intros [?|Hex]; [lia|]. f_equal.
           apply IH in Hex; [|done]. by simplify_eq.
Qed.


(** A text that raises the configuration error hides what follows it. *)
Lemma k_smallest_loop_earlier (seeds : hash_seeds) (text : str)
    (rest : list str) :
  shingles_of cfg text <> [] ->
  Py.len (shingles_of cfg text) <= permutations cfg ->
  k_smallest_loop cfg seeds
    (map (yield_text cfg seeds false) (text :: rest))
  = Raise PermutationsVsShingles.
Proof.
  intros Hne Hle. simpl. rewrite yield_text_nonempty by done. simpl.
  apply (k_smallest_hash_Raise_iff cfg seeds) in Hle. by rewrite Hle.
Qed.


(** Under the multi-hash literal and with a worker, [_min_hash] shingles
    every text, then signs every text. *)
Lemma min_hash_multi (seeds : hash_seeds) (text : texts) :
  py_is (method cfg) "multi_hash" = true -> 1 <= n_jobs cfg ->
  _min_hash cfg seeds (_k_shingles cfg seeds text true)
  = let* items := collect (map (yield_text cfg seeds true) (documents text)) in
    collect (map thread_multi_hash_packed items).
Proof.
  intros His Hjobs. rewrite min_hash_rows. unfold _k_shingles. rewrite His.
  by destruct (Z.ltb_spec (n_jobs cfg) 1); [lia|].
Qed.

(** The multi-hash branch never raises the configuration error of the other
    strategy. *)
Lemma min_hash_multi_no_config_error (seeds : hash_seeds) (text : texts) :
  py_is (method cfg) "multi_hash" = true ->
  _min_hash cfg seeds (_k_shingles cfg seeds text true)
  <> Raise PermutationsVsShingles.
Proof.
  intros His. rewrite min_hash_rows. unfold _k_shingles. rewrite His.
  destruct (n_jobs cfg <? 1); [done|].
  destruct (collect (map _ (documents text))) as [items|e] eqn:Hitems; simpl.
  - apply collect_fmap_Ok in Hitems.
    intros (item & Hin & Hraise)%collect_fmap_Raise.
    apply list_elem_of_lookup in Hin as [i Hi].
    destruct (Forall2_lookup_r _ _ _ _ _ Hitems Hi) as (t & _ & Hitem).
    apply yield_text_Ok in Hitem as [_ ->]. simpl in Hraise.
    by apply thread_multi_hash_Raise in Hraise as [? _].
  - apply collect_fmap_Raise in Hitems as (t & _ & Hraise).
    apply yield_text_Raise in Hraise as [-> _]. done.
Qed.

End Pipeline.

Section ConstructorFacts.

Context {G : Type} `{NumpyRandom G}.

Lemma draws_length (n : nat) (g : G) : length (draws n g).1 = n.
Proof.
  revert g. induction n as [|n IH]; intros g; simpl; [done|].
  destruct (next_int g) as [x g1]. specialize (IH g1).
  destruct (draws n g1) as [xs g2]. simpl in *. by rewrite IH.
Qed.

Lemma draw_hash_seeds_multi (cfg : config) (g : G) :
  py_eq (method cfg) "multi_hash" = true ->
  seed_in_range cfg -> 0 <= permutations cfg ->
  (draw_hash_seeds cfg g).1
  = Ok (SeedArray
          (draws (Z.to_nat (permutations cfg)) (seeded_state cfg g)).1).
Proof.
  intros Heq Hseed Hperm. unfold draw_hash_seeds, seeded_state, seed_in_range,
    np_random_seed, np_random_randint_size in *.
  rewrite Heq.
  destruct (Z.ltb_spec (permutations cfg) 0); [lia|].
  destruct (seed cfg) as [s|].
  - destruct (s =? 0).
    + by destruct (draws _ g).
    + destruct (Z.ltb_spec s 0); [lia|].
      destruct (Z.ltb_spec (2 ^ 32 - 1) s); [lia|]. simpl.
      by destruct (draws _ (seed_state s)).
  - by destruct (draws _ g).
Qed.

Lemma draw_hash_seeds_scalar (cfg : config) (g : G) :
  py_eq (method cfg) "multi_hash" = false ->
  seed_in_range cfg ->
  (draw_hash_seeds cfg g).1
  = Ok (SeedScalar (next_int (seeded_state cfg g)).1).
Proof.
  intros Heq Hseed. unfold draw_hash_seeds, seeded_state, seed_in_range,
    np_random_seed in *.
  rewrite Heq.
  destruct (seed cfg) as [s|].
  - destruct (s =? 0).
    + by destruct (next_int g).
    + destruct (Z.ltb_spec s 0); [lia|].
      destruct (Z.ltb_spec (2 ^ 32 - 1) s); [lia|]. simpl.
      by destruct (next_int (seed_state s)).
  - by destruct (next_int g).
Qed.

(** Seeds that were drawn under the multi-hash method are an array of
    [permutations] integers. *)
Lemma draw_hash_seeds_Ok_multi (cfg : config) (g : G) (seeds : hash_seeds) :
  py_eq (method cfg) "multi_hash" = true ->
  (draw_hash_seeds cfg g).1 = Ok seeds ->
  exists a, seeds = SeedArray a /\ length a = Z.to_nat (permutations cfg).
Proof.
  intros Heq. unfold draw_hash_seeds, np_random_seed, np_random_randint_size.
  rewrite Heq.
  assert (forall g1,
            (let '(r, g2) :=
               if permutations cfg <? 0 then (Raise NegativeDimensions, g1)
               else let '(a, g') := draws (Z.to_nat (permutations cfg)) g1
                    in (Ok a, g')
             in (let* a := r in Ok (SeedArray a), g2)).1 = Ok seeds ->
            exists a, seeds = SeedArray a
                      /\ length a = Z.to_nat (permutations cfg)) as Hdraw.
  { intros g1. destruct (permutations cfg <? 0); [done|].
    pose proof (draws_length (Z.to_nat (permutations cfg)) g1) as Hlen.
    destruct (draws _ g1) as [a g']. simpl in *.
    intros [= <-]. by exists a. }
  destruct (seed cfg) as [s|]; [|apply Hdraw].
  destruct (s =? 0); [apply Hdraw|].
  destruct ((s <? 0) || (2 ^ 32 - 1 <? s)); [done|apply Hdraw].
Qed.

(** The constructor, once the configuration is validated. *)
Lemma init_validated (text : texts) (cfg : config) (g : G) :
  validate cfg = Ok tt ->
  (__init__ text cfg g).1
  = let* seeds := (draw_hash_seeds cfg g).1 in
    let* signatures :=
      _min_hash cfg seeds
        (_k_shingles cfg seeds text (py_is (method cfg) "multi_hash")) in
    Ok {| _hash_seeds := seeds; signatures := signatures |}.
Proof.
  intros Hvalid. unfold __init__. rewrite Hvalid.
  by destruct (draw_hash_seeds cfg g).
Qed.

(** The constructor returns the exception of the validation, and leaves the
    generator alone. *)
Lemma init_invalid (text : texts) (cfg : config) (g : G) (e : error) :
  validate cfg = Raise e -> __init__ text cfg g = (Raise e, g).
Proof. intros Hvalid. unfold __init__. by rewrite Hvalid. Qed.

(** A constructor that returns has validated its configuration and drawn
    its seeds. *)
Lemma init_Ok (text : texts) (cfg : config) (g : G) (obj : MinHash) :
  (__init__ text cfg g).1 = Ok obj ->
  validate cfg = Ok tt
  /\ (draw_hash_seeds cfg g).1 = Ok (_hash_seeds obj)
  /\ _min_hash cfg (_hash_seeds obj)
       (_k_shingles cfg (_hash_seeds obj) text
          (py_is (method cfg) "multi_hash"))
     = Ok (signatures obj).
Proof.
  destruct (validate cfg) as [[]|e] eqn:Hvalid.
  - rewrite init_validated by done.
    destruct (draw_hash_seeds cfg g).1 as [seeds|e]; simpl; [|done].
    destruct (_min_hash _ _ _) as [m|e] eqn:Hmin; simpl; [|done].
    by intros [= <-].
  - by rewrite (init_invalid _ _ _ e).
Qed.

End ConstructorFacts.

(* ================================================================== *)
(** * The claims *)
(* ================================================================== *)

(** ** C1 *)

(** C1, at an input where the code departs from it.  The claim: every entry
    of a multi-hash signature is the least hash value of the document under
    the corresponding seed.  The text ["kcgga"], shingled with a width of
    four, gives the shingles ["kcgg"] and ["cgga"]; under the seed 46347 and
    32-bit hashing their hash values are 0 and 98386258.  The running
    minimum 0 is taken for a missing value by [not _min_value], so the
    signature holds 98386258, not the minimum 0. *)
Theorem thread_multi_hash_zero_hash :
  let cfg := {| n_gram := 4; n_gram_type := "char"; permutations := 1;
                hash_bits := 32; method := literal "multi_hash";
                seed := None; n_jobs := 1 |} in
  let document := shingles_of cfg (lit "kcgga") in
  document = [lit "kcgg"; lit "cgga"]
  /\ hashes 32 document 46347 = [0; 98386258]
  /\ is_min 0 (hashes 32 document 46347)
  /\ thread_multi_hash document (SeedArray [46347]) 32
     = Ok [Some 98386258].
Proof.
  assert (hashes 32 [lit "kcgg"; lit "cgga"] 46347 = [0; 98386258]) as Hh
    by (vm_compute; reflexivity).
  cbv zeta. change (shingles_of _ (lit "kcgga"))
    with [lit "kcgg"; lit "cgga"].
  rewrite Hh.
  split; [reflexivity|]. split; [reflexivity|].
  split; [|vm_compute; reflexivity].
  split.
  - by left.
  - intros x Hx. repeat (apply elem_of_cons in Hx as [->|Hx]; [lia|]).
    by apply elem_of_nil in Hx.
Qed.

(** ** C2 *)

(** With a seed other than zero, the hash seeds, and with them the whole
    outcome, do not depend on the state the generator was in. *)
Lemma explicit_seed_reproducible {G : Type} `{NumpyRandom G} (text : texts)
    (cfg : config) (s : Z) (g1 g2 : G) :
  seed cfg = Some s -> s <> 0 ->
  (__init__ text cfg g1).1 = (__init__ text cfg g2).1.
Proof.
  intros Hseed Hs.
  destruct (validate cfg) as [[]|e] eqn:Hvalid.
  - rewrite !init_validated by done.
    assert ((draw_hash_seeds cfg g1).1 = (draw_hash_seeds cfg g2).1) as ->;
      [|done].
    unfold draw_hash_seeds, np_random_seed. rewrite Hseed.
    destruct (Z.eqb_spec s 0); [done|].
    destruct ((s <? 0) || (2 ^ 32 - 1 <? s)); [done|].
    destruct (py_eq _ _); [|by destruct (next_int _)].
    by destruct (np_random_randint_size _ _).
  - by rewrite !(init_invalid _ _ _ e).
Qed.

(** The [seed] argument is read by the seeding statement only. *)
Lemma push_hashes_with_seed (cfg : config) (s : option Z)
    (seeds : hash_seeds) (document : list str) :
  forall signature : list Z,
    push_hashes (with_seed cfg s) seeds document signature
    = push_hashes cfg seeds document signature.
Proof.
  induction document as [|shingle rest IH]; intros signature; simpl; [done|].
  destruct (mmh3_seed seeds); simpl; [apply IH|done].
Qed.

Lemma k_smallest_loop_with_seed (cfg : config) (s : option Z)
    (seeds : hash_seeds) (shingles : list (result yielded)) :
  k_smallest_loop (with_seed cfg s) seeds shingles
  = k_smallest_loop cfg seeds shingles.
Proof.
  induction shingles as [|round rest IH]; simpl; [done|].
  rewrite IH. destruct round as [[d sd b|d]|e]; simpl; try done.
  unfold _k_smallest_hash. by rewrite push_hashes_with_seed.
Qed.

(** C2, at an input where the code departs from it.  The claim: two
    constructions with the same explicit integer seed and configuration
    give the same signature matrix.  The seed 0 does not pass the test
    [if seed:], so the generator is not seeded: the constructor behaves as
    it does without a seed, for every generator; run twice in a row on
    ["abcde"] it draws different hash seeds and returns different
    matrices. *)
Theorem explicit_seed_zero_not_reproducible :
  (forall (G : Type) (R : NumpyRandom G) (text : texts) (cfg : config)
          (g : G),
      __init__ text (with_seed cfg (Some 0)) g
      = __init__ text (with_seed cfg None) g)
  /\ let cfg := {| n_gram := 3; n_gram_type := "char"; permutations := 2;
                   hash_bits := 32; method := literal "multi_hash";
                   seed := Some 0; n_jobs := 1 |} in
     exists first second,
       construct_twice (Texts [lit "abcde"]) cfg 1 = (Ok first, Ok second)
       /\ _hash_seeds first = SeedArray [3527602; 77401579]
       /\ _hash_seeds second = SeedArray [62824091; 47902793]
       /\ signatures first = [[Some (-1795010896); Some (-1798374758)]]
       /\ signatures second = [[Some 150432358; Some (-741058539)]]
       /\ signatures first <> signatures second.
Proof.
  split.
  { intros G R text cfg g. unfold __init__.
    change (validate (with_seed cfg (Some 0)))
      with (validate (with_seed cfg None)).
    destruct (validate _); [|done].
    change (draw_hash_seeds (with_seed cfg (Some 0)) g)
      with (draw_hash_seeds (with_seed cfg None) g).
    destruct (draw_hash_seeds _ g) as [[seeds|e] g']; [|done].
    simpl. by rewrite !min_hash_rows, !k_smallest_loop_with_seed. }
  cbv zeta. eexists _, _.
  split; [vm_compute; reflexivity|]. simpl.
  repeat (split; [reflexivity|]). discriminate.
Qed.

(** ** C3 *)

(** C3, at an input where the code departs from it.  The claim: for a
    positive width [n_gram] and a text at least that long, extraction gives
    [len(text) - n_gram + 1] shingles.  With a width of one the trimming
    bound [(n_gram - 1) * -1] is zero and [[:0]] keeps nothing: the text
    ["abc"] should give three shingles and gives none, and the constructor
    raises the error meant for a text shorter than the width. *)
Theorem shingles_width_one :
  let cfg := {| n_gram := 1; n_gram_type := "char"; permutations := 2;
                hash_bits := 64; method := literal "multi_hash";
                seed := None; n_jobs := 1 |} in
  let text := lit "abc" in
  0 < n_gram cfg <= Py.len text
  /\ Py.len text - n_gram cfg + 1 = 3
  /\ shingles_of cfg text = []
  /\ (__init__ (Texts [text]) cfg 1).1 = Raise InsufficientText.
Proof.
  cbv zeta. split; [by vm_compute|].
  split; [reflexivity|]. split; [reflexivity|].
  vm_compute. reflexivity.
Qed.

(** ** C4 *)

Lemma k_smallest_values_not_multi_hash (cfg : config) :
  py_eq (method cfg) "k_smallest_values" = true ->
  py_eq (method cfg) "multi_hash" = false
  /\ py_is (method cfg) "multi_hash" = false.
Proof.
  unfold py_eq, py_is. intros ->%String.eqb_eq.
  split; [done|]. by rewrite andb_false_r.
Qed.

(** The validation raises nothing but its three errors. *)
Lemma validate_Raise (cfg : config) (e : error) :
  validate cfg = Raise e ->
  e = UnsupportedNGramType \/ e = UnsupportedHashBits
  \/ e = UnsupportedMethod.
Proof.
  unfold validate.
  repeat (destruct (negb _); [intros [= <-]; auto|]). done.
Qed.

(** The seeding and the draw raise nothing but NumPy's two errors. *)
Lemma draw_hash_seeds_Raise {G : Type} `{NumpyRandom G} (cfg : config)
    (g : G) (e : error) :
  (draw_hash_seeds cfg g).1 = Raise e ->
  e = SeedOutOfRange \/ e = NegativeDimensions.
Proof.
  unfold draw_hash_seeds, np_random_seed, np_random_randint_size.
  assert (forall g1 : G,
            (if py_eq (method cfg) "multi_hash"
             then let '(r, g2) :=
                    if permutations cfg <? 0
                    then (Raise NegativeDimensions, g1)
                    else let '(a, g') :=
                           draws (Z.to_nat (permutations cfg)) g1
                         in (Ok a, g')
                  in (let* a := r in Ok (SeedArray a), g2)
             else let '(s, g2) := next_int g1 in (Ok (SeedScalar s), g2)).1
            = Raise e -> e = SeedOutOfRange \/ e = NegativeDimensions)
    as Hdraw.
  { intros g1. destruct (py_eq _ _); [|by destruct (next_int g1)].
    destruct (permutations cfg <? 0); [intros [= <-]; auto|].
    by destruct (draws _ g1). }
  destruct (seed cfg) as [s|]; [|apply Hdraw].
  destruct (s =? 0); [apply Hdraw|].
  destruct ((s <? 0) || (2 ^ 32 - 1 <? s)); [|apply Hdraw].
  intros [= <-]. auto.
Qed.

(** Whatever the seeds are, the sequential loop raises the configuration
    error for a text that has no more shingles than [permutations] only. *)
Lemma k_smallest_loop_config_error (cfg : config) (seeds : hash_seeds)
    (texts : list str) :
  k_smallest_loop cfg seeds (map (yield_text cfg seeds false) texts)
  = Raise PermutationsVsShingles ->
  Exists (fun d => Py.len (shingles_of cfg d) <= permutations cfg) texts.
Proof.
  induction texts as [|d texts IH]; simpl; [done|].
  destruct (yield_text cfg seeds false d) as [item|e] eqn:Hitem; simpl.
  - apply yield_text_Ok in Hitem as [_ ->].
    destruct (_k_smallest_hash cfg seeds (shingles_of cfg d))
      as [signature|e] eqn:Hsig; simpl.
    + destruct (k_smallest_loop cfg seeds _) as [m|e]; simpl; [done|].
      intros [= ->]. right. by apply IH.
    + intros [= ->]. left. by apply (k_smallest_hash_Raise_iff cfg seeds).
  - apply yield_text_Raise in Hitem as [-> _]. done.
Qed.

(** With the single session seed, the sequential loop raises the
    configuration error exactly when it reaches a text with shingles, no
    more of them than [permutations], before any text without shingles. *)
Lemma k_smallest_loop_Raise_first (cfg : config) (s : Z) (texts : list str) :
  k_smallest_loop cfg (SeedScalar s)
    (map (yield_text cfg (SeedScalar s) false) texts)
  = Raise PermutationsVsShingles
  <-> exists pre d post,
        texts = pre ++ d :: post
        /\ Forall (fun t => shingles_of cfg t <> []) pre
        /\ shingles_of cfg d <> []
        /\ Py.len (shingles_of cfg d) <= permutations cfg.
Proof.
  induction texts as [|t rest IH]; simpl.
  - split; [done|]. intros (pre & d & post & Heq & _). by destruct pre.
  - destruct (decide (shingles_of cfg t = [])) as [Hempty|Hne].
    + rewrite yield_text_empty by done. simpl. split; [done|].
      intros (pre & d & post & Heq & Hpre & Hd & _).
      destruct pre as [|t' pre]; simplify_eq/=.
      by apply Forall_cons in Hpre as [? _].
    + rewrite yield_text_nonempty by done. simpl.
      destruct (Z.leb_spec (Py.len (shingles_of cfg t)) (permutations cfg))
        as [Hle|Hgt].
      * pose proof Hle as Hraise.
        apply (k_smallest_hash_Raise_iff cfg (SeedScalar s)) in Hraise.
        rewrite Hraise. simpl. split; [|done]. intros _.
        exists [], t, rest. by repeat split.
      * rewrite k_smallest_hash_scalar by done. simpl.
        assert (k_smallest_loop cfg (SeedScalar s)
                  (map (yield_text cfg (SeedScalar s) false) rest)
                = Raise PermutationsVsShingles
                <-> exists pre d post,
                      t :: rest = pre ++ d :: post
                      /\ Forall (fun t => shingles_of cfg t <> []) pre
                      /\ shingles_of cfg d <> []
                      /\ Py.len (shingles_of cfg d) <= permutations cfg)
          as <-.
        { rewrite IH. split.
          - intros (pre & d & post & -> & Hpre & Hd & Hle).
            exists (t :: pre), d, post. split; [done|].
            split; [by constructor|done].
          - intros (pre & d & post & Heq & Hpre & Hd & Hle).
            destruct pre as [|t' pre]; simplify_eq/=; [lia|].
            apply Forall_cons in Hpre as [_ Hpre].
            by exists pre, d, post. }
        destruct (k_smallest_loop cfg (SeedScalar s) _) as [m|e]; simpl;
          [done|].
        split; by intros [= ->].
Qed.

(** C4 fails as stated.  The claim: the k-smallest-values strategy raises
    the permutations-vs-shingles error if and only if some document has a
    shingle count less than or equal to [permutations].  With a width of
    three and [permutations = 2], the text ["abcd"] has two shingles, but
    in the corpus [["hi"; "abcd"]] the text ["hi"], which has none, is
    reached first and raises the error for insufficient text. *)
Lemma config_error_masked :
  let cfg := {| n_gram := 3; n_gram_type := "char"; permutations := 2;
                hash_bits := 64; method := literal "k_smallest_values";
                seed := Some 42; n_jobs := 1 |} in
  let text := Texts [lit "hi"; lit "abcd"] in
  shingles_of cfg (lit "abcd") = [lit "abc"; lit "bcd"]
  /\ Exists (fun d => Py.len (shingles_of cfg d) <= permutations cfg)
       (documents text)
  /\ (__init__ text cfg 1).1 = Raise InsufficientText
  /\ (__init__ text cfg 1).1 <> Raise PermutationsVsShingles.
Proof.
  cbv zeta. split; [reflexivity|]. split.
  { simpl. apply List.Exists_cons_tl, List.Exists_cons_hd. by vm_compute. }
  assert ((__init__ (Texts [lit "hi"; lit "abcd"])
             {| n_gram := 3; n_gram_type := "char"; permutations := 2;
                hash_bits := 64; method := literal "k_smallest_values";
                seed := Some 42; n_jobs := 1 |} 1).1
          = Raise InsufficientText) as -> by (vm_compute; reflexivity).
  split; [reflexivity|discriminate].
Qed.

(** C4, amended.  Under the k-smallest-values method with a well-formed
    configuration, the constructor raises the permutations-vs-shingles
    error if and only if some document has a non-empty shingle sequence of
    at most [permutations] shingles and no document before it has an empty
    shingle sequence.  In particular, on a corpus whose documents all have
    a non-empty shingle sequence, it is raised if and only if some document
    has a shingle count less than or equal to [permutations].  The test is
    made for each document: [_k_smallest_hash] raises the error for a
    document if and only if its shingle count is at most [permutations], so
    a corpus whose documents all have more shingles than [permutations]
    never raises it. *)
Theorem k_smallest_config_error_iff {G : Type} `{NumpyRandom G}
    (text : texts) (cfg : config) (g : G) :
  well_configured cfg ->
  py_eq (method cfg) "k_smallest_values" = true ->
  ((__init__ text cfg g).1 = Raise PermutationsVsShingles
   <-> exists pre d post,
         documents text = pre ++ d :: post
         /\ Forall (fun t => shingles_of cfg t <> []) pre
         /\ shingles_of cfg d <> []
         /\ Py.len (shingles_of cfg d) <= permutations cfg)
  /\ (Forall (fun d => shingles_of cfg d <> []) (documents text) ->
      (__init__ text cfg g).1 = Raise PermutationsVsShingles
      <-> Exists (fun d => Py.len (shingles_of cfg d) <= permutations cfg)
            (documents text))
  /\ (forall (seeds : hash_seeds) (document : list str),
        _k_smallest_hash cfg seeds document = Raise PermutationsVsShingles
        <-> Py.len document <= permutations cfg)
  /\ (Forall (fun d => permutations cfg < Py.len (shingles_of cfg d))
        (documents text) ->
      (__init__ text cfg g).1 <> Raise PermutationsVsShingles).
Proof.
  intros (Hvalid & Hseed & _ & _) [Hneq Hnis]%k_smallest_values_not_multi_hash.
  set (s := (next_int (seeded_state cfg g)).1).
  assert ((__init__ text cfg g).1 = Raise PermutationsVsShingles
          <-> k_smallest_loop cfg (SeedScalar s)
                (map (yield_text cfg (SeedScalar s) false) (documents text))
              = Raise PermutationsVsShingles) as Hloop.
  { rewrite init_validated, draw_hash_seeds_scalar by done. simpl.
    rewrite min_hash_rows. unfold _k_shingles. rewrite Hnis. fold s.
    destruct (k_smallest_loop cfg (SeedScalar s) _) as [m|e]; simpl.
    - done.
    - split; by intros [= ->]. }
  split; [|split; [|split]].
  - by rewrite Hloop, k_smallest_loop_Raise_first.
  - intros Hne. by rewrite Hloop, k_smallest_loop_Raise_iff.
  - apply k_smallest_hash_Raise_iff.
  - intros Hall. rewrite Hloop.
    intros Hex%k_smallest_loop_config_error.
    apply Exists_exists in Hex as (d & Hin & Hle).
    rewrite Forall_forall in Hall. specialize (Hall d Hin). lia.
Qed.

Lemma k_smallest_config_error_iff_witness :
  let cfg := {| n_gram := 3; n_gram_type := "char"; permutations := 2;
                hash_bits := 64; method := literal "k_smallest_values";
                seed := Some 42; n_jobs := 1 |} in
  let text := Texts [lit "abcde"; lit "abcd"] in
  ((__init__ text cfg 1).1 = Raise PermutationsVsShingles
   <-> exists pre d post,
         documents text = pre ++ d :: post
         /\ Forall (fun t => shingles_of cfg t <> []) pre
         /\ shingles_of cfg d <> []
         /\ Py.len (shingles_of cfg d) <= permutations cfg)
  /\ (Forall (fun d => shingles_of cfg d <> []) (documents text) ->
      (__init__ text cfg 1).1 = Raise PermutationsVsShingles
      <-> Exists (fun d => Py.len (shingles_of cfg d) <= permutations cfg)
            (documents text))
  /\ (forall (seeds : hash_seeds) (document : list str),
        _k_smallest_hash cfg seeds document = Raise PermutationsVsShingles
        <-> Py.len document <= permutations cfg)
  /\ (Forall (fun d => permutations cfg < Py.len (shingles_of cfg d))
        (documents text) ->
      (__init__ text cfg 1).1 <> Raise PermutationsVsShingles).
Proof.
  cbv zeta. apply k_smallest_config_error_iff.
  - split; [reflexivity|]. split; [by vm_compute|].
    split; intros ?; simpl; lia.
  - reflexivity.
Defined.

(** ** C5 *)

(** C5.  For a document whose shingle count exceeds [permutations], the
    k-smallest-values signature is made of the [permutations] smallest of
    the values obtained by hashing every shingle once with the session seed,
    in ascending order: it is sorted, it has [permutations] entries (none
    when [permutations] is negative), and together with the values left out,
    none of which is smaller than an entry, it holds each hash value as many
    times as the document produces it. *)
Theorem k_smallest_signature (cfg : config) (s : Z) (document : list str) :
  permutations cfg < Py.len document ->
  exists signature rest,
    _k_smallest_hash cfg (SeedScalar s) document = Ok signature
    /\ length signature = Z.to_nat (permutations cfg)
    /\ Sorted Z.le signature
    /\ signature ++ rest ≡ₚ hashes (hash_bits cfg) document s
    /\ (forall x y, x ∈ signature -> y ∈ rest -> x <= y).
Proof.
  intros Hgt. rewrite k_smallest_hash_scalar by done.
  set (hs := hashes (hash_bits cfg) document s).
  assert (Py.len hs = Py.len document) as Hlen.
  { unfold hs, hashes, Py.len. by rewrite length_map. }
  exists (Py.nsmallest (permutations cfg) hs).
  pose proof (nsmallest_length (permutations cfg) hs) as Hns.
  unfold Py.nsmallest in *.
  destruct (Z.leb_spec (permutations cfg) 0) as [Hle|Hpos].
  - exists hs. split; [done|]. split; [simpl; lia|].
    split; [constructor|]. split; [done|].
    intros x y Hx. by apply elem_of_nil in Hx.
  - set (n := Z.to_nat (permutations cfg)) in *.
    exists (drop n (Py.sorted hs)).
    pose proof (sorted_StronglySorted hs) as Hsorted.
    rewrite <- (take_drop n (Py.sorted hs)) in Hsorted.
    split; [done|]. split; [apply Hns; lia|].
    split; [|split].
    + eapply StronglySorted_Sorted, StronglySorted_app_1_l, Hsorted.
    + by rewrite take_drop, sorted_Permutation.
    + intros x y. by apply StronglySorted_app_1_elem_of.
Qed.

Lemma k_smallest_signature_witness :
  let cfg := {| n_gram := 3; n_gram_type := "char"; permutations := 2;
                hash_bits := 32; method := literal "k_smallest_values";
                seed := Some 42; n_jobs := 1 |} in
  let document := [lit "abc"; lit "bcd"; lit "cde"] in
  exists signature rest,
    _k_smallest_hash cfg (SeedScalar 5) document = Ok signature
    /\ length signature = Z.to_nat (permutations cfg)
    /\ Sorted Z.le signature
    /\ signature ++ rest ≡ₚ hashes (hash_bits cfg) document 5
    /\ (forall x y, x ∈ signature -> y ∈ rest -> x <= y).
Proof.
  cbv zeta. apply k_smallest_signature. reflexivity.
Defined.

(** ** C6 *)

(** The rows of the matrix of a constructor that returns: one per
    document, in the order of the corpus, each the signature of its
    document under the strategy that ran, with as many entries as
    [permutations] counts (none when it is negative). *)
Lemma signature_matrix_rows {G : Type} `{NumpyRandom G} (text : texts)
    (cfg : config) (g : G) (obj : MinHash) :
  (__init__ text cfg g).1 = Ok obj ->
  length (signatures obj) = length (documents text)
  /\ forall (i : nat) (d : str),
       documents text !! i = Some d ->
       exists row,
         signatures obj !! i = Some row
         /\ length row = Z.to_nat (permutations cfg)
         /\ signature_of cfg (_hash_seeds obj) d = Ok row.
Proof.
  intros (Hvalid & Hdraw & Hmin)%init_Ok.
  destruct obj as [seeds m]. simpl in *.
  rewrite min_hash_rows in Hmin. unfold _k_shingles, signature_of in *.
  destruct (py_is (method cfg) "multi_hash") eqn:His.
  - apply py_is_eq in His.
    destruct (draw_hash_seeds_Ok_multi cfg g seeds His Hdraw)
      as (a & -> & Hlen).
    destruct (n_jobs cfg <? 1); [done|].
    destruct (collect (map _ (documents text))) as [items|e] eqn:Hitems;
      simpl in Hmin; [|done].
    apply collect_fmap_Ok in Hitems. apply collect_fmap_Ok in Hmin.
    split.
    { by rewrite <- (Forall2_length _ _ _ Hmin), (Forall2_length _ _ _ Hitems). }
    intros i d Hd.
    destruct (Forall2_lookup_l _ _ _ _ _ Hitems Hd) as (item & Hi & Hitem).
    destruct (Forall2_lookup_l _ _ _ _ _ Hmin Hi) as (row & Hrow & Hsig).
    apply yield_text_Ok in Hitem as [_ ->]. simpl in Hsig.
    exists row. split; [done|]. split; [|done].
    unfold thread_multi_hash in Hsig.
    destruct a as [|s a]; simpl in Hsig; [done|].
    injection Hsig as <-. simpl in *. by rewrite length_map.
  - apply k_smallest_loop_Ok in Hmin. split.
    { by rewrite <- (Forall2_length _ _ _ Hmin). }
    intros i d Hd.
    destruct (Forall2_lookup_l _ _ _ _ _ Hmin Hd)
      as (row & Hrow & _ & signature & Hsig & ->).
    exists (map Some signature). split; [done|]. split.
    + rewrite length_map. by apply (k_smallest_hash_length cfg seeds _ _ Hsig).
    + by rewrite Hsig.
Qed.

(** C6 fails as stated.  The claim: whenever the constructor returns, the
    matrix has the shape (number of documents, permutations).  On the empty
    corpus the constructor returns, and [np.array] of the empty list has the
    one-dimensional shape [(0,)], not [(0, 100)]; and with
    [permutations = -1], which the k-smallest-values method lets through,
    the row of ["abcde"] is empty: the shape is [(1, 0)], not [(1, -1)]. *)
Lemma signature_matrix_shape_fails :
  (let cfg := {| n_gram := 9; n_gram_type := "char"; permutations := 100;
                 hash_bits := 64; method := literal "multi_hash";
                 seed := None; n_jobs := 1 |} in
   let text := Texts [] in
   exists obj,
     (__init__ text cfg 1).1 = Ok obj
     /\ shape (signatures obj) = [0]
     /\ shape (signatures obj)
        <> [Py.len (documents text); permutations cfg])
  /\ (let cfg := {| n_gram := 3; n_gram_type := "char"; permutations := -1;
                    hash_bits := 64; method := literal "k_smallest_values";
                    seed := None; n_jobs := 1 |} in
      let text := Texts [lit "abcde"] in
      exists obj,
        (__init__ text cfg 1).1 = Ok obj
        /\ shape (signatures obj) = [1; 0]
        /\ shape (signatures obj)
           <> [Py.len (documents text); permutations cfg]).
Proof.
  split; cbv zeta; eexists; (split; [vm_compute; reflexivity|]);
    simpl; (split; [reflexivity|discriminate]).
Qed.

(** C6, amended.  When the constructor returns, under either strategy, the
    signature matrix has one row per document of the corpus, in the order
    of the corpus, and row [i] is the signature of document [i] under the
    strategy that ran.  Its shape is (number of documents, permutations)
    when the corpus has a document and [permutations] is not negative; on
    the empty corpus the shape is the one-dimensional [(0,)], and with a
    negative [permutations], which only the k-smallest-values strategy lets
    through, the rows are empty and the shape is
    (number of documents, 0). *)
Theorem signature_matrix_shape {G : Type} `{NumpyRandom G} (text : texts)
    (cfg : config) (g : G) (obj : MinHash) :
  (__init__ text cfg g).1 = Ok obj ->
  length (signatures obj) = length (documents text)
  /\ (forall (i : nat) (d : str),
        documents text !! i = Some d ->
        exists row,
          signatures obj !! i = Some row
          /\ length row = Z.to_nat (permutations cfg)
          /\ signature_of cfg (_hash_seeds obj) d = Ok row)
  /\ shape (signatures obj)
     = match documents text with
       | [] => [0]
       | _ :: _ => [Py.len (documents text); Z.max 0 (permutations cfg)]
       end
  /\ (documents text <> [] -> 0 <= permutations cfg ->
      shape (signatures obj) = [Py.len (documents text); permutations cfg]).
Proof.
  intros Hobj.
  destruct (signature_matrix_rows text cfg g obj Hobj) as [Hlen Hrows].
  assert (shape (signatures obj)
          = match documents text with
            | [] => [0]
            | _ :: _ => [Py.len (documents text); Z.max 0 (permutations cfg)]
            end) as Hshape.
  { destruct (documents text) as [|d rest] eqn:Hdocs.
    - by destruct (signatures obj).
    - destruct (Hrows 0%nat d eq_refl) as (row & Hrow & Hrowlen & _).
      destruct (signatures obj) as [|row' m]; simplify_eq/=.
      unfold Py.len. simpl. rewrite Hlen, Hrowlen. do 2 f_equal. lia. }
  split; [done|]. split; [done|]. split; [done|].
  intros Hne Hperm. rewrite Hshape.
  destruct (documents text); [done|]. do 2 f_equal. lia.
Qed.

Lemma signature_matrix_shape_witness :
  let cfg := {| n_gram := 3; n_gram_type := "char"; permutations := 2;
                hash_bits := 64; method := literal "k_smallest_values";
                seed := Some 42; n_jobs := 1 |} in
  let text := Texts [lit "abcde"; lit "hello world"] in
  let obj :=
    {| _hash_seeds := SeedScalar 50496040;
       signatures :=
         [[Some (-577532488493255026); Some 1875363598228427825];
          [Some (-3748223272298211462); Some (-3325261479616802780)]] |} in
  length (signatures obj) = length (documents text)
  /\ (forall (i : nat) (d : str),
        documents text !! i = Some d ->
        exists row,
          signatures obj !! i = Some row
          /\ length row = Z.to_nat (permutations cfg)
          /\ signature_of cfg (_hash_seeds obj) d = Ok row)
  /\ shape (signatures obj)
     = match documents text with
       | [] => [0]
       | _ :: _ => [Py.len (documents text); Z.max 0 (permutations cfg)]
       end
  /\ (documents text <> [] -> 0 <= permutations cfg ->
      shape (signatures obj) = [Py.len (documents text); permutations cfg]).
Proof.
  cbv zeta. apply (signature_matrix_shape _ _ 1).
  vm_compute. reflexivity.
Defined.

(** ** C8 *)

(** C8.  When [n_gram_type] is neither ['char'] nor ['term'], or
    [hash_bits] is not 32, 64 or 128, or [method] is neither
    ['multi_hash'] nor ['k_smallest_values'], the constructor raises the
    error of the first membership test that fails; it does so whatever the
    texts are and without touching the generator: nothing was shingled,
    drawn or hashed. *)
Theorem invalid_configuration_eager (cfg : config) :
  (n_gram_type cfg <> "char"%string /\ n_gram_type cfg <> "term"%string)
  \/ (hash_bits cfg <> 32 /\ hash_bits cfg <> 64 /\ hash_bits cfg <> 128)
  \/ (value (method cfg) <> "multi_hash"%string
      /\ value (method cfg) <> "k_smallest_values"%string) ->
  exists e,
    validate cfg = Raise e
    /\ (e = UnsupportedNGramType \/ e = UnsupportedHashBits
        \/ e = UnsupportedMethod)
    /\ forall (G : Type) (R : NumpyRandom G) (text : texts) (g : G),
         __init__ text cfg g = (Raise e, g).
Proof.
  intros Hbad.
  assert (exists e, validate cfg = Raise e
            /\ (e = UnsupportedNGramType \/ e = UnsupportedHashBits
                \/ e = UnsupportedMethod)) as (e & Hvalid & He).
  { unfold validate, py_eq.
    destruct Hbad as [[Hc Ht]|[(H32 & H64 & H128)|[Hm Hk]]].
    - apply String.eqb_neq in Hc, Ht. rewrite Hc, Ht. simpl. eauto.
    - destruct (negb (_ || _)); [eauto|].
      apply Z.eqb_neq in H32, H64, H128. rewrite H32, H64, H128. simpl.
      eauto.
    - destruct (negb (_ || _)); [eauto|].
      destruct (negb (_ || _)); [eauto|].
      apply String.eqb_neq in Hm, Hk. rewrite Hm, Hk. simpl. eauto 6. }
  exists e. split; [done|]. split; [done|].
  intros G R text g. by apply init_invalid.
Qed.

Lemma invalid_configuration_eager_witness :
  let cfg := {| n_gram := 9; n_gram_type := "char"; permutations := 100;
                hash_bits := 16; method := literal "multi_hash";
                seed := None; n_jobs := 1 |} in
  exists e,
    validate cfg = Raise e
    /\ (e = UnsupportedNGramType \/ e = UnsupportedHashBits
        \/ e = UnsupportedMethod)
    /\ forall (G : Type) (R : NumpyRandom G) (text : texts) (g : G),
         __init__ text cfg g = (Raise e, g).
Proof.
  cbv zeta. apply invalid_configuration_eager.
  right. left. simpl. lia.
Defined.

(** ** C9 *)

(** The multi-hash strategy on one document: with at least one seed it
    returns one entry per seed, whatever the number of shingles, and every
    entry is an integer when the document has a shingle. *)
Lemma thread_multi_hash_total (document : list str) (a : list Z)
    (hash_bits : Z) :
  document <> [] -> a <> [] ->
  exists signature,
    thread_multi_hash document (SeedArray a) hash_bits = Ok signature
    /\ length signature = length a
    /\ Forall is_Some signature.
Proof.
  intros Hdoc Ha. rewrite thread_multi_hash_array by done.
  eexists. split; [done|]. split; [by rewrite length_map|].
  apply Forall_forall. intros x (s & -> & _)%list_elem_of_fmap.
  by apply seed_min_Some.
Qed.

Section MultiHashConstruction.

Context {G : Type} `{NumpyRandom G}.

(** The generator of shingles, on texts that all have shingles. *)
Lemma collect_yield_text (cfg : config) (seeds : hash_seeds)
    (texts : list str) :
  Forall (fun d => shingles_of cfg d <> []) texts ->
  collect (map (yield_text cfg seeds true) texts)
  = Ok (map (fun d => Packed (shingles_of cfg d) seeds (hash_bits cfg)) texts).
Proof.
  induction 1 as [|d texts Hd _ IH]; simpl; [done|].
  by rewrite yield_text_nonempty, IH.
Qed.

(** The workers, on packed items that share an array with a seed. *)
Lemma collect_thread_multi_hash (cfg : config) (a : list Z)
    (texts : list str) :
  a <> [] ->
  collect
    (map thread_multi_hash_packed
       (map (fun d => Packed (shingles_of cfg d) (SeedArray a) (hash_bits cfg))
          texts))
  = Ok (map (fun d => map (seed_min (hash_bits cfg) (shingles_of cfg d)) a)
          texts).
Proof.
  intros Ha. induction texts as [|d texts IH]; simpl; [done|].
  by rewrite thread_multi_hash_array, IH.
Qed.

End MultiHashConstruction.

(** C9, at an input where the code departs from it.  The claim: under the
    multi-hash strategy, documents with a non-empty shingle sequence of at
    most [permutations] shingles are signed without the
    permutations-vs-shingles error.  The constructor is called with a
    method string equal to ['multi_hash'] that is not the interned literal,
    such as [''.join(['multi_', 'hash'])], on the texts ["abcde"] and
    ["minhash"] with a width of three and six permutations.  The
    configuration is accepted, and the seeds are drawn as an array, by
    [method == 'multi_hash']; the signing is selected by
    [method is 'multi_hash'], which is false: the k-smallest-values loop
    runs and raises the permutations-vs-shingles error on the three
    shingles of ["abcde"], whatever NumPy's generator draws. *)
Theorem multi_hash_equal_string_raises :
  let cfg := {| n_gram := 3; n_gram_type := "char"; permutations := 6;
                hash_bits := 32;
                method := {| value := "multi_hash"; interned := false |};
                seed := Some 42; n_jobs := 2 |} in
  let text := Texts [lit "abcde"; lit "minhash"] in
  py_eq (method cfg) "multi_hash" = true
  /\ validate cfg = Ok tt
  /\ map (shingles_of cfg) (documents text)
     = [[lit "abc"; lit "bcd"; lit "cde"];
        [lit "min"; lit "inh"; lit "nha"; lit "has"; lit "ash"]]
  /\ Forall (fun d => shingles_of cfg d <> []
                      /\ Py.len (shingles_of cfg d) <= permutations cfg)
       (documents text)
  /\ forall (G : Type) (R : NumpyRandom G) (g : G),
       (exists a, (draw_hash_seeds cfg g).1 = Ok (SeedArray a))
       /\ (__init__ text cfg g).1 = Raise PermutationsVsShingles.
Proof.
  cbv zeta. split; [reflexivity|]. split; [reflexivity|].
  split; [reflexivity|]. split.
  - simpl. repeat (apply List.Forall_cons; [split; by vm_compute|]).
    apply List.Forall_nil.
  - intros G R g.
    set (cfg := {| n_gram := 3; n_gram_type := "char"; permutations := 6;
                   hash_bits := 32;
                   method := {| value := "multi_hash"; interned := false |};
                   seed := Some 42; n_jobs := 2 |}).
    assert (validate cfg = Ok tt) as Hvalid by reflexivity.
    assert (seed_in_range cfg) as Hseed by (by vm_compute).
    assert (py_eq (method cfg) "multi_hash" = true) as Heq by reflexivity.
    assert (0 <= permutations cfg) as Hperm by (simpl; lia).
    split.
    + rewrite draw_hash_seeds_multi by auto. simpl. by eexists.
    + (* the loop stops at the first text: the seeds are not looked at *)
      rewrite init_validated, draw_hash_seeds_multi by auto. simpl.
      reflexivity.
Qed.

(** ** C10 *)




(** ** C7 *)




(** ** The method argument *)

(** The constructor selects the strategy with [method is 'multi_hash'].  A
    string that is equal to ['multi_hash'] without being the interned
    object passes the membership test and gets an array of seeds, and is
    then sent through the k-smallest-values loop. *)
Remark multi_hash_by_value :
  let cfg := {| n_gram := 3; n_gram_type := "char"; permutations := 4;
                hash_bits := 64;
                method := {| value := "multi_hash"; interned := false |};
                seed := None; n_jobs := 1 |} in
  validate cfg = Ok tt
  /\ (__init__ (Texts [lit "abcde"]) cfg 1).1 = Raise PermutationsVsShingles.
Proof. cbv zeta. split; vm_compute; reflexivity. Qed.

(* ================================================================== *)
(** * Further properties of the module *)
(* ================================================================== *)

(** ** The multi-hash strategy, entry by entry *)

Section MultiHashEntries.

Variable hash_bits : Z.

Lemma loop_invariant_step (m h : Z) (seen : list Z) :
  loop_invariant m seen ->
  loop_invariant
    (if m =? 0 then h else if m >? h then h else m) (seen ++ [h]).
Proof.
  intros (Hin & Hneg & Hpos).
  assert (forall x, x ∈ seen ++ [h] <-> x ∈ seen \/ x = h) as Hsnoc.
  { intros x. rewrite elem_of_app, list_elem_of_singleton. done. }
  assert ((forall x, x ∈ seen -> 0 <= x) \/ (exists x, x ∈ seen /\ x < 0))
    as Hsign.
  { destruct (decide (Exists (fun x => x < 0) seen)) as [Hex|Hall].
    - right. by apply Exists_exists in Hex.
    - left. apply not_Exists_Forall in Hall; [|intros x; apply _].
      rewrite Forall_forall in Hall. intros x Hx.
      specialize (Hall x Hx). simpl in Hall. lia. }
  destruct (Z.eqb_spec m 0) as [Hm|Hm].
  - (* the running value is zero: no value seen is negative *)
    subst m.
    assert (forall x, x ∈ seen -> 0 <= x) as Hnonneg.
    { destruct Hsign as [?|Hex]; [done|].
      destruct (Hneg Hex) as [_ Hle]. exact Hle. }
    split; [apply Hsnoc; by right|]. split.
    + intros (x & [Hx| ->]%Hsnoc & Hlt); [specialize (Hnonneg x Hx); lia|].
      split; [apply Hsnoc; by right|].
      intros y [Hy| ->]%Hsnoc; [specialize (Hnonneg y Hy)|]; lia.
    + intros Hall. assert (0 < 0); [|lia].
      apply Hall, Hsnoc. by left.
  - assert (forall m', m' = Z.min m h -> is_min m seen ->
              is_min m' (seen ++ [h])) as Hmin.
    { intros m' -> [_ Hle]. split.
      - apply Hsnoc. destruct (Z.min_spec m h) as [[_ ->]|[_ ->]]; auto.
      - intros y [Hy| ->]%Hsnoc; [specialize (Hle y Hy)|]; lia. }
    assert ((if m >? h then h else m) = Z.min m h) as Hstep
      by (destruct (Z.gtb_spec m h); lia).
    rewrite Hstep. split; [|split].
    + apply Hsnoc. destruct (Z.min_spec m h) as [[_ ->]|[_ ->]]; auto.
    + intros (x & Hx & Hlt). destruct Hsign as [Hnonneg|Hex].
      * (* [h] is the first negative value *)
        apply Hsnoc in Hx as [Hx| ->]; [specialize (Hnonneg x Hx); lia|].
        split; [apply Hsnoc; right; pose proof (Hnonneg m Hin); lia|].
        intros y [Hy| ->]%Hsnoc; [specialize (Hnonneg y Hy)|]; lia.
      * by apply Hmin, Hneg.
    + intros Hall. apply Hmin; [done|]. apply Hpos.
      intros y Hy. apply Hall, Hsnoc. by left.
Qed.

Lemma fold_min_step_invariant (seed : Z) (document : list str) :
  forall (m : Z) (seen : list Z),
    loop_invariant m seen ->
    exists e,
      fold_left (min_step hash_bits seed) document (Some m) = Some e
      /\ loop_invariant e (seen ++ hashes hash_bits document seed).
Proof.
  induction document as [|shingle rest IH]; intros m seen Hinv;
    cbn [fold_left hashes map].
  - exists m. by rewrite app_nil_r.
  - set (h := hash_value hash_bits shingle seed).
    assert (min_step hash_bits seed (Some m) shingle
            = Some (if m =? 0 then h else if m >? h then h else m)) as ->.
    { unfold min_step. fold h. destruct (m =? 0); [done|].
      by destruct (m >? h). }
    apply (loop_invariant_step _ h) in Hinv.
    destruct (IH _ _ Hinv) as (e & Hfold & He).
    exists e. split; [exact Hfold|]. by rewrite <- app_assoc in He.
Qed.

(** The entry for one seed is the hash value of a shingle of the document,
    and it is the least of these hash values whenever the least one is not
    zero. *)
Lemma seed_min_entry (seed : Z) (document : list str) :
  document <> [] ->
  exists e,
    seed_min hash_bits document seed = Some e
    /\ e ∈ hashes hash_bits document seed
    /\ forall m, is_min m (hashes hash_bits document seed) -> m <> 0 -> e = m.
Proof.
  destruct document as [|shingle rest]; [done|]. intros _.
  unfold seed_min. simpl.
  set (h := hash_value hash_bits shingle seed).
  destruct (fold_min_step_invariant seed rest h [h]) as (e & -> & Hinv).
  { split; [by apply list_elem_of_singleton|].
    split; intros _; (split; [by apply list_elem_of_singleton|]);
      intros x ->%list_elem_of_singleton; lia. }
  exists e. split; [done|]. destruct Hinv as (Hin & Hneg & Hpos).
  split; [done|]. intros m [Hm Hle] Hm0.
  assert (is_min e ([h] ++ hashes hash_bits rest seed)) as [He Hle'].
  { destruct (Z.lt_trichotomy m 0) as [Hlt|[?|Hgt]]; [|done|].
    - apply Hneg. by exists m.
    - apply Hpos. intros x Hx. specialize (Hle x Hx). lia. }
  specialize (Hle e He). specialize (Hle' m Hm). lia.
Qed.

End MultiHashEntries.

(** X1.  Every entry of a multi-hash signature of a document with at least
    one shingle is the hash value of one of its shingles under the seed of
    that entry, and it is the least of these hash values whenever the least
    one is not zero; the entries follow the order of the seeds. *)
Theorem thread_multi_hash_entries (document : list str) (a : list Z)
    (hash_bits : Z) (signature : list (option Z)) :
  document <> [] ->
  thread_multi_hash document (SeedArray a) hash_bits = Ok signature ->
  Forall2
    (fun seed entry =>
       exists e,
         entry = Some e
         /\ e ∈ hashes hash_bits document seed
         /\ forall m,
              is_min m (hashes hash_bits document seed) -> m <> 0 -> e = m)
    a signature.
Proof.
  intros Hdoc. unfold thread_multi_hash.
  destruct (nditer (SeedArray a)) as [a'|e] eqn:Hiter; simpl; [|done].
  assert (a' = a) as -> by (destruct a; by simplify_eq/=).
  intros [= <-]. apply Forall2_fmap_r, Forall_Forall2_diag, Forall_forall.
  intros seed _.
  destruct (seed_min_entry hash_bits seed document Hdoc) as (e & He & Hin & Hmin).
  by exists e.
Qed.

Lemma thread_multi_hash_entries_witness :
  let document := [lit "abc"; lit "bcd"; lit "cde"] in
  Forall2
    (fun seed entry =>
       exists e,
         entry = Some e
         /\ e ∈ hashes 32 document seed
         /\ forall m, is_min m (hashes 32 document seed) -> m <> 0 -> e = m)
    [5; 7] [Some (-2006288641); Some 750659641].
Proof.
  cbv zeta. apply thread_multi_hash_entries; [discriminate|].
  vm_compute. reflexivity.
Defined.

(** X2.  [thread_multi_hash] raises for the empty array of seeds only; on
    any other array it returns one entry per seed whatever the document and
    the hash width are, the entries being integers when the document has a
    shingle and [None] when it has none. *)
Theorem thread_multi_hash_shape (document : list str) (a : list Z)
    (hash_bits : Z) :
  match a with
  | [] =>
      thread_multi_hash document (SeedArray a) hash_bits
      = Raise ZeroSizedIteration
  | _ :: _ =>
      exists signature,
        thread_multi_hash document (SeedArray a) hash_bits = Ok signature
        /\ length signature = length a
        /\ (document = [] -> Forall (fun entry => entry = None) signature)
        /\ (document <> [] -> Forall is_Some signature)
  end.
Proof.
  destruct a as [|s a]; [done|].
  rewrite thread_multi_hash_array by done.
  eexists. split; [done|]. split; [by rewrite length_map|]. split.
  - intros ->. apply Forall_forall.
    by intros entry (s' & -> & _)%list_elem_of_fmap.
  - intros Hdoc. apply Forall_forall.
    intros entry (s' & -> & _)%list_elem_of_fmap. by apply seed_min_Some.
Qed.

(** Without a zero hash value, the entry for a seed is the least hash
    value, and there is one. *)
Lemma seed_min_least (hash_bits seed : Z) (document : list str) :
  document <> [] ->
  Forall (fun h => h <> 0) (hashes hash_bits document seed) ->
  exists e,
    seed_min hash_bits document seed = Some e
    /\ is_min e (hashes hash_bits document seed).
Proof.
  intros Hdoc Hnz.
  destruct (seed_min_entry hash_bits seed document Hdoc) as (e & He & Hin & _).
  destruct (seed_min_minimum hash_bits seed document Hdoc Hnz)
    as (m & Hm & Hmin).
  exists e. split; [done|]. by simplify_eq.
Qed.

Lemma hashes_subset (hash_bits seed : Z) (document document' : list str) :
  (forall shingle, shingle ∈ document -> shingle ∈ document') ->
  forall h, h ∈ hashes hash_bits document seed ->
            h ∈ hashes hash_bits document' seed.
Proof.
  intros Hsub h (shingle & -> & Hin)%list_elem_of_fmap.
  apply list_elem_of_fmap. exists shingle. auto.
Qed.

(** X3.  Shingles can only lower a multi-hash signature: when every shingle
    of [document] is a shingle of [document'], and no shingle of
    [document'] hashes to zero under a seed of the array, every entry of
    the signature of [document'] is less than or equal to the entry of
    [document] for the same seed. *)
Theorem thread_multi_hash_monotone (document document' : list str)
    (a : list Z) (hash_bits : Z) (signature signature' : list (option Z)) :
  document <> [] ->
  (forall shingle, shingle ∈ document -> shingle ∈ document') ->
  Forall (fun seed =>
            Forall (fun h => h <> 0) (hashes hash_bits document' seed)) a ->
  thread_multi_hash document (SeedArray a) hash_bits = Ok signature ->
  thread_multi_hash document' (SeedArray a) hash_bits = Ok signature' ->
  Forall2
    (fun entry entry' =>
       exists e e', entry = Some e /\ entry' = Some e' /\ e' <= e)
    signature signature'.
Proof.
  intros Hdoc Hsub Hnz. unfold thread_multi_hash.
  destruct (nditer (SeedArray a)) as [a'|e] eqn:Hiter; simpl; [|done].
  assert (a' = a) as -> by (destruct a; by simplify_eq/=).
  intros [= <-] [= <-].
  apply Forall2_fmap, Forall_Forall2_diag.
  eapply Forall_impl; [exact Hnz|]. intros seed Hseed. simpl.
  assert (document' <> []) as Hdoc'.
  { destruct document as [|shingle rest]; [done|].
    intros ->. specialize (Hsub shingle). rewrite elem_of_nil in Hsub.
    apply Hsub. by left. }
  destruct (seed_min_entry hash_bits seed document Hdoc) as (e & -> & Hin & _).
  destruct (seed_min_least hash_bits seed document' Hdoc' Hseed)
    as (e' & -> & _ & Hle).
  exists e, e'. split; [done|]. split; [done|].
  by apply Hle, (hashes_subset _ _ document).
Qed.

Lemma thread_multi_hash_monotone_witness :
  Forall2
    (fun entry entry' =>
       exists e e', entry = Some e /\ entry' = Some e' /\ e' <= e)
    [Some (-797352931); Some 940791465]
    [Some (-2006288641); Some 750659641].
Proof.
  apply (thread_multi_hash_monotone
           [lit "abc"; lit "bcd"] [lit "abc"; lit "bcd"; lit "cde"]
           [5; 7] 32).
  - discriminate.
  - intros shingle. rewrite !elem_of_cons, !elem_of_nil. tauto.
  - repeat (apply List.Forall_cons;
            [vm_compute; repeat constructor; discriminate|]).
    apply List.Forall_nil.
  - vm_compute. reflexivity.
  - vm_compute. reflexivity.
Defined.

(** X4.  A multi-hash signature depends on the set of shingles only: two
    documents with the same shingles, in any order and any number of times,
    have the same signature, provided no shingle hashes to zero under a
    seed of the array. *)
Theorem thread_multi_hash_same_shingles (document document' : list str)
    (a : list Z) (hash_bits : Z) :
  (forall shingle, shingle ∈ document <-> shingle ∈ document') ->
  Forall (fun seed =>
            Forall (fun h => h <> 0) (hashes hash_bits document seed)) a ->
  thread_multi_hash document (SeedArray a) hash_bits
  = thread_multi_hash document' (SeedArray a) hash_bits.
Proof.
  intros Hsame Hnz. unfold thread_multi_hash.
  destruct (nditer (SeedArray a)) as [a'|e] eqn:Hiter; simpl; [|done].
  assert (a' = a) as -> by (destruct a; by simplify_eq/=).
  f_equal. apply list_eq_Forall2, Forall2_fmap, Forall_Forall2_diag.
  eapply Forall_impl; [exact Hnz|]. intros seed Hseed. simpl.
  destruct document as [|shingle rest].
  { destruct document' as [|shingle' rest']; [done|].
    exfalso. apply (elem_of_nil shingle'), Hsame. by left. }
  assert (document' <> []) as Hdoc'.
  { intros ->. apply (elem_of_nil shingle), Hsame. by left. }
  assert (Forall (fun h => h <> 0) (hashes hash_bits document' seed))
    as Hseed'.
  { apply Forall_forall. intros h Hh.
    rewrite Forall_forall in Hseed. apply Hseed.
    revert h Hh. apply hashes_subset. intros x. apply Hsame. }
  destruct (seed_min_least hash_bits seed (shingle :: rest)) as (e & -> & He & Hle);
    [done|done|].
  destruct (seed_min_least hash_bits seed document' Hdoc' Hseed')
    as (e' & -> & He' & Hle').
  f_equal. apply Z.le_antisymm.
  - apply Hle. revert He'. apply hashes_subset. intros x. apply Hsame.
  - apply Hle'. revert He. apply hashes_subset. intros x. apply Hsame.
Qed.

Lemma thread_multi_hash_same_shingles_witness :
  thread_multi_hash [lit "abc"; lit "bcd"; lit "cde"] (SeedArray [5; 7]) 32
  = thread_multi_hash [lit "cde"; lit "abc"; lit "bcd"; lit "abc"]
      (SeedArray [5; 7]) 32.
Proof.
  apply thread_multi_hash_same_shingles.
  - intros shingle. rewrite !elem_of_cons, !elem_of_nil. tauto.
  - repeat (apply List.Forall_cons;
            [vm_compute; repeat constructor; discriminate|]).
    apply List.Forall_nil.
Defined.

(** ** The shingle extractor, for a width of at least two *)

Lemma range_lookup_Some (n : Z) (i : nat) (k : Z) :
  Py.range n !! i = Some k -> k = Z.of_nat i /\ Z.of_nat i < n.
Proof.
  intros Hk. assert (i < Z.to_nat n)%nat as Hi.
  { apply lookup_lt_Some in Hk. by rewrite range_length in Hk. }
  rewrite range_lookup in Hk by done. split; [by simplify_eq|lia].
Qed.

(** X5.  In character mode with a width [n_gram] of at least two, a text
    of [len] characters has [max(0, len - n_gram + 1)] shingles, and the
    shingle at position [i] is the window of [n_gram] characters of the text
    that starts at offset [i]. *)
Theorem char_shingles_windows (cfg : config) (text : str) :
  n_gram_type cfg = "char"%string -> 2 <= n_gram cfg ->
  Py.len (shingles_of cfg text) = Z.max 0 (Py.len text - n_gram cfg + 1)
  /\ forall (i : nat) (shingle : str),
       shingles_of cfg text !! i = Some shingle ->
       shingle = window text (n_gram cfg) (Z.of_nat i)
       /\ Py.len shingle = n_gram cfg.
Proof.
  intros Htype Hn. rewrite shingles_of_char by done. split.
  - unfold Py.len at 1. rewrite length_map, range_length. lia.
  - intros i shingle (k & -> & Hk)%list_lookup_fmap_Some.
    apply range_lookup_Some in Hk as [-> Hi].
    split; [done|]. apply window_length; lia.
Qed.

Lemma char_shingles_windows_witness :
  let cfg := {| n_gram := 3; n_gram_type := "char"; permutations := 2;
                hash_bits := 64; method := literal "multi_hash";
                seed := None; n_jobs := 1 |} in
  let text := lit "minhash" in
  Py.len (shingles_of cfg text) = Z.max 0 (Py.len text - n_gram cfg + 1)
  /\ forall (i : nat) (shingle : str),
       shingles_of cfg text !! i = Some shingle ->
       shingle = window text (n_gram cfg) (Z.of_nat i)
       /\ Py.len shingle = n_gram cfg.
Proof.
  cbv zeta. apply char_shingles_windows; [reflexivity|simpl; lia].
Defined.

(** X6.  In character mode with a width of at least two, the generator
    raises the insufficient-text error for exactly the texts that are
    shorter than [n_gram]. *)
Theorem char_insufficient_text_iff (cfg : config) (seeds : hash_seeds)
    (packed : bool) (text : str) :
  n_gram_type cfg = "char"%string -> 2 <= n_gram cfg ->
  yield_text cfg seeds packed text = Raise InsufficientText
  <-> Py.len text < n_gram cfg.
Proof.
  intros Htype Hn.
  assert (shingles_of cfg text = [] <-> Py.len text < n_gram cfg) as <-.
  { rewrite shingles_of_char by done.
    rewrite <- length_zero_iff_nil, length_map, range_length.
    unfold Py.len. lia. }
  split.
  - by intros [_ ?]%yield_text_Raise.
  - apply yield_text_empty.
Qed.

Lemma char_insufficient_text_iff_witness :
  let cfg := {| n_gram := 9; n_gram_type := "char"; permutations := 100;
                hash_bits := 64; method := literal "multi_hash";
                seed := None; n_jobs := 1 |} in
  yield_text cfg (SeedArray [1]) true (lit "hi") = Raise InsufficientText
  <-> Py.len (lit "hi") < n_gram cfg.
Proof.
  cbv zeta. apply char_insufficient_text_iff; [reflexivity|simpl; lia].
Defined.

(** X7.  In term mode with a width of at least two, a text of [k]
    white-space separated terms has [max(0, k - n_gram + 1)] shingles, and
    the shingle at position [i] joins, with single spaces, the [n_gram]
    terms that start at term [i]. *)
Theorem term_shingles_windows (cfg : config) (text : str) :
  n_gram_type cfg = "term"%string -> 2 <= n_gram cfg ->
  Py.len (shingles_of cfg text)
  = Z.max 0 (Py.len (Py.split text) - n_gram cfg + 1)
  /\ forall (i : nat) (shingle : str),
       shingles_of cfg text !! i = Some shingle ->
       exists terms,
         shingle = Py.join (lit " ") terms
         /\ terms = window (Py.split text) (n_gram cfg) (Z.of_nat i)
         /\ Py.len terms = n_gram cfg.
Proof.
  intros Htype Hn.
  rewrite shingles_of_term by (by rewrite ?Htype). split.
  - unfold Py.len at 1. rewrite length_map, range_length. lia.
  - intros i shingle (k & -> & Hk)%list_lookup_fmap_Some.
    apply range_lookup_Some in Hk as [-> Hi].
    eexists. split; [done|]. split; [done|]. apply window_length; lia.
Qed.

Lemma term_shingles_windows_witness :
  let cfg := {| n_gram := 2; n_gram_type := "term"; permutations := 2;
                hash_bits := 64; method := literal "multi_hash";
                seed := None; n_jobs := 1 |} in
  let text := lit "  the quick  brown fox " in
  Py.len (shingles_of cfg text)
  = Z.max 0 (Py.len (Py.split text) - n_gram cfg + 1)
  /\ forall (i : nat) (shingle : str),
       shingles_of cfg text !! i = Some shingle ->
       exists terms,
         shingle = Py.join (lit " ") terms
         /\ terms = window (Py.split text) (n_gram cfg) (Z.of_nat i)
         /\ Py.len terms = n_gram cfg.
Proof.
  cbv zeta. apply term_shingles_windows; [reflexivity|simpl; lia].
Defined.

(** X8.  In term mode with a width of at least two, the generator raises
    the insufficient-text error for exactly the texts that have fewer than
    [n_gram] terms, however many characters they have. *)
Theorem term_insufficient_text_iff (cfg : config) (seeds : hash_seeds)
    (packed : bool) (text : str) :
  n_gram_type cfg = "term"%string -> 2 <= n_gram cfg ->
  yield_text cfg seeds packed text = Raise InsufficientText
  <-> Py.len (Py.split text) < n_gram cfg.
Proof.
  intros Htype Hn.
  assert (shingles_of cfg text = [] <-> Py.len (Py.split text) < n_gram cfg)
    as <-.
  { rewrite shingles_of_term by (by rewrite ?Htype).
    rewrite <- length_zero_iff_nil, length_map, range_length.
    unfold Py.len. lia. }
  split.
  - by intros [_ ?]%yield_text_Raise.
  - apply yield_text_empty.
Qed.

Lemma term_insufficient_text_iff_witness :
  let cfg := {| n_gram := 3; n_gram_type := "term"; permutations := 100;
                hash_bits := 64; method := literal "multi_hash";
                seed := None; n_jobs := 1 |} in
  let text := lit "near duplicate" in
  yield_text cfg (SeedArray [1]) true text = Raise InsufficientText
  <-> Py.len (Py.split text) < n_gram cfg.
Proof.
  cbv zeta. apply term_insufficient_text_iff; [reflexivity|simpl; lia].
Defined.

(** X9.  In character mode with a width of at least two, consecutive
    shingles overlap: a shingle without its first character is the next
    shingle without its last character. *)
Theorem char_shingles_overlap (cfg : config) (text : str) (i : nat)
    (shingle next : str) :
  n_gram_type cfg = "char"%string -> 2 <= n_gram cfg ->
  shingles_of cfg text !! i = Some shingle ->
  shingles_of cfg text !! S i = Some next ->
  drop 1 shingle = take (Z.to_nat (n_gram cfg - 1)) next.
Proof.
  intros Htype Hn. rewrite shingles_of_char by done.
  intros (k & -> & Hk)%list_lookup_fmap_Some
         (k' & -> & Hk')%list_lookup_fmap_Some.
  apply range_lookup_Some in Hk as [-> _].
  apply range_lookup_Some in Hk' as [-> _].
  unfold window. rewrite !Nat2Z.id.
  rewrite take_take, Nat.min_l by lia.
  replace (S i) with (i + 1)%nat by lia.
  rewrite <- (drop_drop text 1 i).
  rewrite (take_drop_commute (drop i text) (Z.to_nat (n_gram cfg - 1)) 1).
  do 2 f_equal. lia.
Qed.

Lemma char_shingles_overlap_witness :
  drop 1 (lit "inh") = take (Z.to_nat (3 - 1)) (lit "nha").
Proof.
  apply (char_shingles_overlap
           {| n_gram := 3; n_gram_type := "char"; permutations := 2;
              hash_bits := 64; method := literal "multi_hash";
              seed := None; n_jobs := 1 |}
           (lit "minhash") 1); [reflexivity|simpl; lia|reflexivity..].
Defined.

(** X10.  In character mode with a width of at least two, the shingles of
    a text come first, in the same order, among the shingles of every text
    it begins: two texts with a common beginning share its shingles. *)
Theorem char_shingles_prefix (cfg : config) (text more : str) :
  n_gram_type cfg = "char"%string -> 2 <= n_gram cfg ->
  shingles_of cfg text `prefix_of` shingles_of cfg (text ++ more).
Proof.
  intros Htype Hn. rewrite !shingles_of_char by done.
  set (n := n_gram cfg) in *.
  set (k := Py.len text - n + 1).
  assert (k <= Py.len (text ++ more) - n + 1) as Hk.
  { unfold k, Py.len. rewrite length_app. lia. }
  rewrite <- (take_range_le k (Py.len (text ++ more) - n + 1)) by done.
  set (r := Py.range (Py.len (text ++ more) - n + 1)).
  rewrite <- (take_drop (Z.to_nat k) r) at 2. rewrite fmap_app.
  assert (window (text ++ more) n <$> take (Z.to_nat k) r
          = window text n <$> take (Z.to_nat k) r) as ->;
    [|by apply prefix_app_r].
  apply list_fmap_ext. intros j i Hi.
  apply lookup_take_Some in Hi as [Hi Hj].
  apply range_lookup_Some in Hi as [-> _].
  unfold window. rewrite Nat2Z.id, drop_app_le by (unfold k, Py.len in *; lia).
  apply take_app_le. rewrite length_drop. unfold k, Py.len in *. lia.
Qed.

Lemma char_shingles_prefix_witness :
  let cfg := {| n_gram := 3; n_gram_type := "char"; permutations := 2;
                hash_bits := 64; method := literal "multi_hash";
                seed := None; n_jobs := 1 |} in
  shingles_of cfg (lit "the quick brown fo")
  `prefix_of` shingles_of cfg (lit "the quick brown fo" ++ lit "g").
Proof.
  cbv zeta. apply char_shingles_prefix; [reflexivity|simpl; lia].
Defined.

(** ** A width of zero *)

(** X11.  The width is not validated.  With [n_gram = 0] in character mode
    every text that is not empty has the empty string as its only shingle,
    so all such texts get the same signature, under either strategy. *)
Theorem zero_width_same_signature (cfg : config) (seeds : hash_seeds)
    (text text' : str) :
  n_gram cfg = 0 -> n_gram_type cfg = "char"%string ->
  text <> [] -> text' <> [] ->
  shingles_of cfg text = [[]]
  /\ signature_of cfg seeds text = signature_of cfg seeds text'.
Proof.
  intros Hn Htype Htext Htext'.
  assert (forall t : str, t <> [] -> shingles_of cfg t = [[]]) as Hone.
  { intros t Ht. unfold shingles_of. rewrite Hn, Htype. simpl.
    destruct t as [|c t]; [done|].
    unfold Py.slice at 1, Py.slice_index. rewrite length_map, range_length.
    unfold Py.len. simpl length.
    replace (Z.of_nat (Z.to_nat (Z.of_nat (S (length t)))))
      with (Z.of_nat (S (length t))) by lia.
    replace (Z.to_nat (Z.of_nat (S (length t)))) with (S (length t)) by lia.
    cbn [from_option]. rewrite (Z.min_l 1) by lia.
    unfold Py.range. rewrite Nat2Z.id. cbn [seq map drop take Z.to_nat].
    change (Z.to_nat 0) with 0%nat. change (Z.to_nat (1 - 0)) with 1%nat.
    cbn [drop take map seq]. reflexivity. }
  split; [by apply Hone|].
  unfold signature_of. by rewrite !Hone.
Qed.

Lemma zero_width_same_signature_witness :
  let cfg := {| n_gram := 0; n_gram_type := "char"; permutations := 2;
                hash_bits := 64; method := literal "multi_hash";
                seed := None; n_jobs := 1 |} in
  shingles_of cfg (lit "the quick brown fox") = [[]]
  /\ signature_of cfg (SeedArray [5; 7]) (lit "the quick brown fox")
     = signature_of cfg (SeedArray [5; 7]) (lit "lorem ipsum").
Proof.
  cbv zeta. apply zero_width_same_signature; [reflexivity..|discriminate|discriminate].
Defined.

(** ** The k-smallest-values strategy, beyond the signature *)

(** With an array in place of the session seed, the loop stops at the first
    shingle. *)
Lemma push_hashes_array (cfg : config) (a : list Z) (document : list str)
    (signature : list Z) :
  push_hashes cfg (SeedArray a) document signature
  = match document with
    | [] => Ok signature
    | _ :: _ => Raise ArgumentTypeError
    end.
Proof. by destruct document. Qed.

(** X12.  A k-smallest-values signature does not depend on the order of
    the shingles: two documents that hold the same shingles the same number
    of times get the same outcome, signature or exception. *)
Theorem k_smallest_hash_Permutation (cfg : config) (seeds : hash_seeds)
    (document document' : list str) :
  document ≡ₚ document' ->
  _k_smallest_hash cfg seeds document = _k_smallest_hash cfg seeds document'.
Proof.
  intros Hperm. unfold _k_smallest_hash, Py.len.
  rewrite (Permutation_length Hperm).
  destruct (Z.leb_spec (Z.of_nat (length document')) (permutations cfg));
    [done|].
  destruct seeds as [a|s].
  - rewrite !push_hashes_array.
    pose proof (Permutation_length Hperm) as Hlen.
    by destruct document, document'.
  - destruct (push_hashes_scalar cfg s document []) as (heap & -> & Hheap).
    destruct (push_hashes_scalar cfg s document' []) as (heap' & -> & Hheap').
    simpl. unfold Py.nsmallest.
    assert (Py.sorted heap = Py.sorted heap') as ->; [|done].
    apply sorted_proper. rewrite Hheap, Hheap', !app_nil_r.
    unfold hashes. by apply fmap_Permutation.
Qed.

Lemma k_smallest_hash_Permutation_witness :
  let cfg := {| n_gram := 3; n_gram_type := "char"; permutations := 2;
                hash_bits := 32; method := literal "k_smallest_values";
                seed := Some 42; n_jobs := 1 |} in
  _k_smallest_hash cfg (SeedScalar 5) [lit "abc"; lit "bcd"; lit "cde"]
  = _k_smallest_hash cfg (SeedScalar 5) [lit "bcd"; lit "abc"; lit "cde"].
Proof.
  cbv zeta. apply k_smallest_hash_Permutation. apply perm_swap.
Defined.

Section KSmallestConstruction.

Context {G : Type} `{NumpyRandom G}.

(** Seeds that were drawn come from a seed NumPy accepts. *)
Lemma draw_hash_seeds_Ok_seed (cfg : config) (g : G) (seeds : hash_seeds) :
  (draw_hash_seeds cfg g).1 = Ok seeds -> seed_in_range cfg.
Proof.
  unfold draw_hash_seeds, np_random_seed, seed_in_range.
  destruct (seed cfg) as [s|]; [|done].
  destruct (Z.eqb_spec s 0) as [->|_]; [intros _; lia|].
  destruct (Z.ltb_spec s 0); [done|].
  destruct (Z.ltb_spec (2 ^ 32 - 1) s); [done|]. intros _. lia.
Qed.

(** An array of seeds that was drawn has a size that is not negative. *)
Lemma draw_hash_seeds_Ok_size (cfg : config) (g : G) (seeds : hash_seeds) :
  py_eq (method cfg) "multi_hash" = true ->
  (draw_hash_seeds cfg g).1 = Ok seeds -> 0 <= permutations cfg.
Proof.
  intros Heq. unfold draw_hash_seeds, np_random_seed, np_random_randint_size.
  rewrite Heq.
  destruct (Z.ltb_spec (permutations cfg) 0) as [Hneg|]; [|done].
  destruct (seed cfg) as [s|]; [|done].
  destruct (s =? 0); [done|].
  by destruct ((s <? 0) || (2 ^ 32 - 1 <? s)).
Qed.

(** The sequential loop on texts that all pass both tests. *)
Lemma k_smallest_loop_all (cfg : config) (s : Z) (texts : list str) :
  Forall (fun d => shingles_of cfg d <> []
                   /\ permutations cfg < Py.len (shingles_of cfg d)) texts ->
  k_smallest_loop cfg (SeedScalar s)
    (map (yield_text cfg (SeedScalar s) false) texts)
  = Ok (map (fun d =>
               map Some (Py.nsmallest (permutations cfg)
                           (hashes (hash_bits cfg) (shingles_of cfg d) s)))
          texts).
Proof.
  induction 1 as [|d texts [Hne Hgt] _ IH]; simpl; [done|].
  rewrite yield_text_nonempty by done. simpl.
  rewrite k_smallest_hash_scalar by done. simpl. by rewrite IH.
Qed.

(** X13.  The k-smallest-values method builds an object exactly when the
    configuration is well formed and every document has a non-empty
    shingle sequence with more shingles than [permutations]. *)
Theorem k_smallest_succeeds_iff (text : texts) (cfg : config) (g : G) :
  py_eq (method cfg) "k_smallest_values" = true ->
  (exists obj, (__init__ text cfg g).1 = Ok obj)
  <-> well_configured cfg
      /\ Forall (fun d => shingles_of cfg d <> []
                          /\ permutations cfg < Py.len (shingles_of cfg d))
           (documents text).
Proof.
  intros [Hneq Hnis]%k_smallest_values_not_multi_hash. split.
  - intros (obj & (Hvalid & Hdraw & Hmin)%init_Ok). split.
    + split; [done|]. split; [by eapply draw_hash_seeds_Ok_seed|].
      rewrite Hneq, Hnis. done.
    + rewrite min_hash_rows in Hmin. unfold _k_shingles in Hmin.
      rewrite Hnis in Hmin.
      apply k_smallest_loop_Ok in Hmin.
      apply Forall_forall. intros d [i Hi]%list_elem_of_lookup.
      destruct (Forall2_lookup_l _ _ _ _ _ Hmin Hi)
        as (row & _ & Hne & signature & Hsig & _).
      split; [done|].
      destruct (Z.le_gt_cases (Py.len (shingles_of cfg d)) (permutations cfg))
        as [Hle|Hgt]; [|lia].
      apply (k_smallest_hash_Raise_iff cfg (_hash_seeds obj)) in Hle.
      by rewrite Hle in Hsig.
  - intros [(Hvalid & Hseed & _ & _) Hdocs].
    rewrite init_validated, draw_hash_seeds_scalar by done. simpl.
    rewrite min_hash_rows. unfold _k_shingles.
    rewrite Hnis, k_smallest_loop_all by done.
    simpl. by eexists.
Qed.

(** X14.  The k-smallest-values method accepts a count of permutations
    that is not positive: with a well-formed configuration, on documents
    that all have a shingle, it builds a matrix of rows without entries. *)
Theorem k_smallest_nonpositive_permutations (text : texts) (cfg : config)
    (g : G) :
  well_configured cfg ->
  py_eq (method cfg) "k_smallest_values" = true ->
  permutations cfg <= 0 ->
  Forall (fun d => shingles_of cfg d <> []) (documents text) ->
  exists obj,
    (__init__ text cfg g).1 = Ok obj
    /\ signatures obj = map (fun _ => []) (documents text).
Proof.
  intros (Hvalid & Hseed & _ & _)
    [Hneq Hnis]%k_smallest_values_not_multi_hash Hperm Hdocs.
  rewrite init_validated, draw_hash_seeds_scalar by done. simpl.
  rewrite min_hash_rows. unfold _k_shingles.
  rewrite Hnis, k_smallest_loop_all.
  - simpl. eexists. split; [done|]. simpl.
    apply list_fmap_ext. intros i d _. unfold Py.nsmallest.
    by destruct (Z.leb_spec (permutations cfg) 0); [|lia].
  - eapply Forall_impl; [exact Hdocs|]. intros d Hne. simpl in *.
    split; [done|].
    destruct (shingles_of cfg d); [done|]. unfold Py.len. cbn [length]. lia.
Qed.

End KSmallestConstruction.

Lemma k_smallest_succeeds_iff_witness :
  let cfg := {| n_gram := 3; n_gram_type := "char"; permutations := 2;
                hash_bits := 64; method := literal "k_smallest_values";
                seed := Some 42; n_jobs := 1 |} in
  let text := Texts [lit "abcde"; lit "hello world"] in
  (exists obj, (__init__ text cfg 1).1 = Ok obj)
  <-> well_configured cfg
      /\ Forall (fun d => shingles_of cfg d <> []
                          /\ permutations cfg < Py.len (shingles_of cfg d))
           (documents text).
Proof.
  cbv zeta. apply k_smallest_succeeds_iff. reflexivity.
Defined.

Lemma k_smallest_nonpositive_permutations_witness :
  let cfg := {| n_gram := 3; n_gram_type := "char"; permutations := 0;
                hash_bits := 64; method := literal "k_smallest_values";
                seed := Some 42; n_jobs := 1 |} in
  let text := Texts [lit "abcde"; lit "hello world"] in
  exists obj,
    (__init__ text cfg 1).1 = Ok obj
    /\ signatures obj = map (fun _ => []) (documents text).
Proof.
  cbv zeta. apply k_smallest_nonpositive_permutations.
  - split; [reflexivity|]. split; [by vm_compute|].
    split; intros ?; simpl; lia.
  - reflexivity.
  - simpl. lia.
  - simpl. repeat (apply List.Forall_cons; [by vm_compute|]).
    apply List.Forall_nil.
Defined.

(** ** The constructor: when it builds an object *)

Section Construction.

Context {G : Type} `{NumpyRandom G}.

(** X15.  Under the multi-hash method, selected by the literal, the
    constructor builds an object exactly when the configuration is well
    formed (supported options, a seed NumPy accepts, a count of
    permutations that is not negative, at least one worker), every document
    has a shingle, and the count of permutations is positive unless the
    corpus is empty. *)
Theorem multi_hash_succeeds_iff (text : texts) (cfg : config) (g : G) :
  py_is (method cfg) "multi_hash" = true ->
  (exists obj, (__init__ text cfg g).1 = Ok obj)
  <-> well_configured cfg
      /\ Forall (fun d => shingles_of cfg d <> []) (documents text)
      /\ (documents text = [] \/ 0 < permutations cfg).
Proof.
  intros His. pose proof (py_is_eq _ _ His) as Heq. split.
  - intros (obj & (Hvalid & Hdraw & Hmin)%init_Ok).
    pose proof (draw_hash_seeds_Ok_size cfg g _ Heq Hdraw) as Hsize.
    destruct (draw_hash_seeds_Ok_multi cfg g _ Heq Hdraw) as (a & Ha & Hlen).
    rewrite min_hash_rows in Hmin. unfold _k_shingles in Hmin.
    rewrite His, Ha in Hmin.
    destruct (Z.ltb_spec (n_jobs cfg) 1) as [|Hjobs]; [done|].
    destruct (collect (map _ (documents text))) as [items|e] eqn:Hitems;
      simpl in Hmin; [|done].
    apply collect_fmap_Ok in Hitems. apply collect_fmap_Ok in Hmin.
    split; [|split].
    + split; [done|]. split; [by eapply draw_hash_seeds_Ok_seed|].
      split; intros _; lia.
    + apply Forall_forall. intros d [i Hi]%list_elem_of_lookup.
      destruct (Forall2_lookup_l _ _ _ _ _ Hitems Hi) as (item & _ & Hitem).
      by apply yield_text_Ok in Hitem as [? _].
    + destruct (documents text) as [|d rest] eqn:Hdocs; [by left|]. right.
      destruct (Forall2_lookup_l _ _ _ 0%nat d Hitems eq_refl)
        as (item & Hi & Hitem).
      destruct (Forall2_lookup_l _ _ _ _ _ Hmin Hi) as (row & _ & Hrow).
      apply yield_text_Ok in Hitem as [_ ->]. simpl in Hrow.
      destruct a as [|s a]; [done|]. simpl in Hlen. lia.
  - intros ((Hvalid & Hseed & Hperm & Hjobs) & Hdocs & Hpos).
    rewrite init_validated, draw_hash_seeds_multi by auto. simpl.
    rewrite His, min_hash_multi, collect_yield_text by auto. simpl.
    set (a := (draws _ _).1).
    destruct (decide (a = [])) as [Ha|Ha].
    + destruct Hpos as [->|Hpos]; [by eexists|].
      pose proof (draws_length (Z.to_nat (permutations cfg))
                    (seeded_state cfg g)) as Hlen.
      fold a in Hlen. rewrite Ha in Hlen. simpl in Hlen. lia.
    + rewrite collect_thread_multi_hash by done. simpl. by eexists.
Qed.

(** X16.  An explicit seed other than zero makes the constructor
    reproducible: the outcome does not depend on the state the process-wide
    generator was in, and two constructions in a row give the same
    outcome. *)
Theorem nonzero_seed_reproducible (text : texts) (cfg : config) (s : Z)
    (g g' : G) :
  seed cfg = Some s -> s <> 0 ->
  (__init__ text cfg g).1 = (__init__ text cfg g').1
  /\ exists outcome, construct_twice text cfg g = (outcome, outcome).
Proof.
  intros Hseed Hs. split; [by eapply explicit_seed_reproducible|].
  unfold construct_twice.
  pose proof (explicit_seed_reproducible text cfg s g (__init__ text cfg g).2
                Hseed Hs) as Hsame.
  destruct (__init__ text cfg g) as [first g1]. simpl in Hsame.
  destruct (__init__ text cfg g1) as [second g2]. simpl in Hsame.
  exists first. by rewrite Hsame.
Qed.

(** X17.  The strategy is selected by identity with the literal
    ['multi_hash'].  A method string that is equal to it without being the
    interned object passes the validation and is then run through the
    k-smallest-values loop: with a well-formed configuration, a first
    document with a shingle sequence of at most [permutations] shingles
    makes the constructor raise the permutations-vs-shingles error. *)
Theorem multi_hash_selected_by_identity (text : texts) (cfg : config)
    (g : G) (d : str) (rest : list str) :
  well_configured cfg ->
  value (method cfg) = "multi_hash"%string ->
  interned (method cfg) = false ->
  documents text = d :: rest ->
  shingles_of cfg d <> [] ->
  Py.len (shingles_of cfg d) <= permutations cfg ->
  (__init__ text cfg g).1 = Raise PermutationsVsShingles.
Proof.
  intros (Hvalid & Hseed & Hperm & _) Hvalue Hinterned Hdocs Hne Hle.
  assert (py_eq (method cfg) "multi_hash" = true) as Heq
    by (unfold py_eq; by rewrite Hvalue).
  assert (py_is (method cfg) "multi_hash" = false) as Hnis
    by (unfold py_is; by rewrite Hinterned).
  rewrite init_validated, draw_hash_seeds_multi by auto. simpl.
  rewrite min_hash_rows. unfold _k_shingles. rewrite Hnis, Hdocs.
  by rewrite k_smallest_loop_earlier.
Qed.

End Construction.

Lemma multi_hash_succeeds_iff_witness :
  let cfg := {| n_gram := 3; n_gram_type := "char"; permutations := 6;
                hash_bits := 32; method := literal "multi_hash";
                seed := Some 42; n_jobs := 2 |} in
  let text := Texts [lit "abcde"; lit "minhash"] in
  (exists obj, (__init__ text cfg 1).1 = Ok obj)
  <-> well_configured cfg
      /\ Forall (fun d => shingles_of cfg d <> []) (documents text)
      /\ (documents text = [] \/ 0 < permutations cfg).
Proof.
  cbv zeta. apply multi_hash_succeeds_iff. reflexivity.
Defined.

Lemma nonzero_seed_reproducible_witness :
  let cfg := {| n_gram := 3; n_gram_type := "char"; permutations := 2;
                hash_bits := 32; method := literal "multi_hash";
                seed := Some 42; n_jobs := 1 |} in
  let text := Texts [lit "abcde"] in
  (__init__ text cfg 1).1 = (__init__ text cfg 2).1
  /\ exists outcome, construct_twice text cfg 1 = (outcome, outcome).
Proof.
  cbv zeta. apply (nonzero_seed_reproducible _ _ 42); [reflexivity|lia].
Defined.

Lemma multi_hash_selected_by_identity_witness :
  let cfg := {| n_gram := 3; n_gram_type := "char"; permutations := 4;
                hash_bits := 64;
                method := {| value := "multi_hash"; interned := false |};
                seed := None; n_jobs := 1 |} in
  (__init__ (Texts [lit "abcde"]) cfg 1).1 = Raise PermutationsVsShingles.
Proof.
  cbv zeta.
  apply (multi_hash_selected_by_identity _ _ 1 (lit "abcde") []).
  - split; [reflexivity|]. split; [by vm_compute|].
    split; intros ?; simpl; [lia|discriminate].
  - reflexivity.
  - reflexivity.
  - reflexivity.
  - by vm_compute.
  - by vm_compute.
Defined.

(** ** The width of the entries *)

Section Width.

Lemma wrap_range (w x : Z) : 0 <= w -> 0 <= Mmh3.wrap w x < 2 ^ w.
Proof.
  intros Hw. unfold Mmh3.wrap. rewrite Z.land_ones by done.
  apply Z.mod_pos_bound. lia.
Qed.

Lemma lxor_range (n a b : Z) :
  0 < n -> 0 <= a < 2 ^ n -> 0 <= b < 2 ^ n -> 0 <= Z.lxor a b < 2 ^ n.
Proof.
  intros Hn Ha Hb.
  assert (0 <= Z.lxor a b) as Hnonneg by (apply Z.lxor_nonneg; lia).
  split; [done|].
  destruct (Z.eq_dec (Z.lxor a b) 0) as [->|Hne]; [lia|].
  apply Z.log2_lt_pow2; [lia|].
  pose proof (Z.log2_lxor a b) as Hlog.
  assert (Z.log2 a < n) by
    (destruct (Z.eq_dec a 0) as [->|?];
     [simpl; lia|apply Z.log2_lt_pow2; lia]).
  assert (Z.log2 b < n) by
    (destruct (Z.eq_dec b 0) as [->|?];
     [simpl; lia|apply Z.log2_lt_pow2; lia]).
  lia.
Qed.

Lemma shiftr_range (n a k : Z) :
  0 <= k -> 0 <= a < 2 ^ n -> 0 <= Z.shiftr a k < 2 ^ n.
Proof.
  intros Hk Ha. rewrite Z.shiftr_div_pow2 by done.
  assert (0 < 2 ^ k) by lia. split; [apply Z.div_pos; lia|].
  apply Z.le_lt_trans with a; [|lia].
  apply Z.div_le_upper_bound; [lia|]. nia.
Qed.

Lemma fmix32_range (h : Z) : 0 <= Mmh3.fmix32 h < 2 ^ 32.
Proof.
  unfold Mmh3.fmix32. cbv zeta.
  apply lxor_range; [lia|apply wrap_range; lia|].
  apply shiftr_range; [lia|apply wrap_range; lia].
Qed.

Lemma signed_range (w x : Z) :
  0 < w -> 0 <= x < 2 ^ w ->
  - 2 ^ (w - 1) <= Mmh3.signed w x < 2 ^ (w - 1).
Proof.
  intros Hw Hx. unfold Mmh3.signed.
  assert (2 ^ w = 2 * 2 ^ (w - 1)) as Hpow.
  { rewrite <- Z.pow_succ_r by lia. f_equal. lia. }
  destruct (Z.ltb_spec x (2 ^ (w - 1))); lia.
Qed.

Lemma murmur3_x64_128_range (data : list Z) (seed : Z) :
  0 <= (Mmh3.murmur3_x64_128 data seed).1 < 2 ^ 64
  /\ 0 <= (Mmh3.murmur3_x64_128 data seed).2 < 2 ^ 64.
Proof.
  unfold Mmh3.murmur3_x64_128.
  destruct (Mmh3.body128 _ _ _ _) as [[h1 h2] tail]. cbv zeta. simpl.
  split; apply wrap_range; lia.
Qed.

Lemma hash_range (key : str) (seed : Z) :
  - 2 ^ 31 <= Mmh3.hash key seed < 2 ^ 31.
Proof.
  unfold Mmh3.hash. apply (signed_range 32); [lia|].
  unfold Mmh3.murmur3_x86_32.
  destruct (Mmh3.body32 _ _) as [h tail]. apply fmix32_range.
Qed.

Lemma hash64_range (key : str) (seed : Z) :
  - 2 ^ 63 <= (Mmh3.hash64 key seed).1 < 2 ^ 63.
Proof.
  unfold Mmh3.hash64.
  pose proof (murmur3_x64_128_range (Mmh3.utf8 key) seed) as [Hh1 _].
  destruct (Mmh3.murmur3_x64_128 _ _) as [h1 h2]. simpl in *.
  by apply (signed_range 64).
Qed.

Lemma hash128_range (key : str) (seed : Z) :
  0 <= Mmh3.hash128 key seed < 2 ^ 128.
Proof.
  unfold Mmh3.hash128.
  pose proof (murmur3_x64_128_range (Mmh3.utf8 key) seed) as [Hh1 Hh2].
  destruct (Mmh3.murmur3_x64_128 _ _) as [h1 h2]. simpl in *.
  assert (0 <= Z.shiftl h2 64 < 2 ^ 128) as Hhigh.
  { rewrite Z.shiftl_mul_pow2 by lia. nia. }
  assert (0 <= Z.lor h1 (Z.shiftl h2 64)) as Hnonneg
    by (apply Z.lor_nonneg; lia).
  split; [done|].
  destruct (Z.eq_dec (Z.lor h1 (Z.shiftl h2 64)) 0) as [->|Hne]; [lia|].
  apply Z.log2_lt_pow2; [lia|].
  rewrite Z.log2_lor by lia.
  assert (Z.log2 h1 < 128) by
    (destruct (Z.eq_dec h1 0) as [->|?];
     [simpl; lia|apply Z.log2_lt_pow2; lia]).
  assert (Z.log2 (Z.shiftl h2 64) < 128) by
    (destruct (Z.eq_dec (Z.shiftl h2 64) 0) as [->|?];
     [simpl; lia|apply Z.log2_lt_pow2; lia]).
  lia.
Qed.

Lemma hash_value_in_width (hash_bits : Z) (shingle : str) (seed : Z) :
  in_width hash_bits (hash_value hash_bits shingle seed).
Proof.
  unfold in_width, hash_value.
  destruct (hash_bits =? 64); [apply hash64_range|].
  destruct (hash_bits =? 32); [apply hash_range|apply hash128_range].
Qed.

(** Whatever the seeds are, a heap that the loop returns holds hash values
    only, beside what it held at the start. *)
Lemma push_hashes_in_width (cfg : config) (seeds : hash_seeds)
    (document : list str) :
  forall signature heap : list Z,
    push_hashes cfg seeds document signature = Ok heap ->
    Forall (in_width (hash_bits cfg)) signature ->
    Forall (in_width (hash_bits cfg)) heap.
Proof.
  induction document as [|shingle rest IH]; intros signature heap; simpl.
  - by intros [= <-].
  - destruct (mmh3_seed seeds) as [s|e]; simpl; [|done].
    intros Hpush Hsig. apply (IH _ _ Hpush).
    rewrite heappush_Permutation. constructor; [|done].
    apply hash_value_in_width.
Qed.

(** X18.  The entries of a signature are integers of the width selected by
    [hash_bits], under both strategies: signed 64-bit values for 64, signed
    32-bit values for 32, and unsigned 128-bit values otherwise. *)
Theorem signature_entries_in_width :
  (forall (document : list str) (seeds : hash_seeds) (hash_bits : Z)
          (signature : list (option Z)),
      thread_multi_hash document seeds hash_bits = Ok signature ->
      Forall (fun entry => forall z, entry = Some z -> in_width hash_bits z)
        signature)
  /\ (forall (cfg : config) (seeds : hash_seeds) (document : list str)
             (signature : list Z),
        _k_smallest_hash cfg seeds document = Ok signature ->
        Forall (in_width (hash_bits cfg)) signature).
Proof.
  split.
  - intros document seeds hash_bits signature. unfold thread_multi_hash.
    destruct (nditer seeds) as [a|e]; simpl; [|done]. intros [= <-].
    apply Forall_forall. intros entry (seed & -> & _)%list_elem_of_fmap z Hz.
    destruct document as [|shingle rest]; [done|].
    destruct (seed_min_entry hash_bits seed (shingle :: rest))
      as (e & He & (sh & -> & _)%list_elem_of_fmap & _); [done|].
    rewrite He in Hz. injection Hz as <-. apply hash_value_in_width.
  - intros cfg seeds document signature. unfold _k_smallest_hash.
    destruct (Py.len document <=? permutations cfg); [done|].
    destruct (push_hashes cfg seeds document []) as [heap|e] eqn:Hpush;
      simpl; [|done].
    intros [= <-]. apply push_hashes_in_width in Hpush; [|constructor].
    unfold Py.nsmallest. destruct (permutations cfg <=? 0); [constructor|].
    apply Forall_take. by rewrite sorted_Permutation.
Qed.

End Width.

(** ** The two strategies side by side *)

(** The first element of a sorted list is its least element. *)
Lemma sorted_head_is_min (l : list Z) (x : Z) (rest : list Z) :
  Py.sorted l = x :: rest -> is_min x l.
Proof.
  intros Hsorted. pose proof (sorted_StronglySorted l) as Hss.
  rewrite Hsorted in Hss. apply StronglySorted_cons in Hss as [Hle _].
  rewrite Forall_forall in Hle.
  assert (forall y, y ∈ l <-> y ∈ x :: rest) as Hmem.
  { intros y. by rewrite <- Hsorted, sorted_Permutation. }
  split; [apply Hmem; by left|].
  intros y [->|Hy]%Hmem%elem_of_cons; [lia|by apply Hle].
Qed.

(** X19.  The two strategies agree on the least hash value: for a document
    with more shingles than [permutations], at least one permutation, and
    no shingle that hashes to zero under the session seed, the first entry
    of the k-smallest-values signature is the entry the multi-hash strategy
    computes for that seed. *)
Theorem k_smallest_first_entry (cfg : config) (s : Z) (document : list str) :
  0 < permutations cfg < Py.len document ->
  Forall (fun h => h <> 0) (hashes (hash_bits cfg) document s) ->
  exists e rest,
    _k_smallest_hash cfg (SeedScalar s) document = Ok (e :: rest)
    /\ thread_multi_hash document (SeedArray [s]) (hash_bits cfg)
       = Ok [Some e].
Proof.
  intros [Hpos Hgt] Hnz. rewrite k_smallest_hash_scalar by done.
  assert (document <> []) as Hdoc.
  { intros ->. unfold Py.len in Hgt. simpl in Hgt. lia. }
  destruct (seed_min_least (hash_bits cfg) s document Hdoc Hnz)
    as (m & Hm & Hmin).
  unfold Py.nsmallest. destruct (Z.leb_spec (permutations cfg) 0); [lia|].
  destruct (Py.sorted (hashes (hash_bits cfg) document s))
    as [|x sorted_rest] eqn:Hsorted.
  { apply (f_equal length) in Hsorted. rewrite sorted_length in Hsorted.
    unfold hashes in Hsorted. rewrite length_map in Hsorted.
    destruct document; [done|]. simpl in Hsorted. lia. }
  destruct (Z.to_nat (permutations cfg)) as [|n] eqn:Hn; [lia|].
  exists x, (take n sorted_rest). split; [done|].
  unfold thread_multi_hash. simpl. rewrite Hm. do 3 f_equal.
  apply sorted_head_is_min in Hsorted.
  destruct Hmin as [Hm_in Hm_le], Hsorted as [Hx_in Hx_le].
  specialize (Hm_le x Hx_in). specialize (Hx_le m Hm_in). lia.
Qed.

Lemma k_smallest_first_entry_witness :
  let cfg := {| n_gram := 3; n_gram_type := "char"; permutations := 2;
                hash_bits := 32; method := literal "k_smallest_values";
                seed := Some 42; n_jobs := 1 |} in
  let document := [lit "abc"; lit "bcd"; lit "cde"] in
  exists e rest,
    _k_smallest_hash cfg (SeedScalar 5) document = Ok (e :: rest)
    /\ thread_multi_hash document (SeedArray [5]) (hash_bits cfg)
       = Ok [Some e].
Proof.
  cbv zeta. apply k_smallest_first_entry.
  - by vm_compute.
  - vm_compute. repeat constructor; discriminate.
Defined.

(** ** The constructor and the generator *)

(** X20.  A constructor that has validated its configuration draws its
    hash seeds before it reads the texts: with a seed NumPy accepts, it
    leaves the process-wide generator in the state reached from the seeded
    state (the state it found, without a seed or with the seed 0) by
    [permutations] draws under the multi-hash method and by one draw
    otherwise, whether the construction then succeeds or fails. *)
Theorem generator_after_construction {G : Type} `{NumpyRandom G}
    (text : texts) (cfg : config) (g : G) :
  validate cfg = Ok tt -> seed_in_range cfg -> 0 <= permutations cfg ->
  (__init__ text cfg g).2
  = if py_eq (method cfg) "multi_hash"
    then (draws (Z.to_nat (permutations cfg)) (seeded_state cfg g)).2
    else (next_int (seeded_state cfg g)).2.
Proof.
  intros Hvalid Hseed Hperm. unfold __init__. rewrite Hvalid.
  assert ((draw_hash_seeds cfg g).2
          = if py_eq (method cfg) "multi_hash"
            then (draws (Z.to_nat (permutations cfg)) (seeded_state cfg g)).2
            else (next_int (seeded_state cfg g)).2) as <-;
    [|by destruct (draw_hash_seeds cfg g)].
  unfold draw_hash_seeds, seeded_state, seed_in_range, np_random_seed,
    np_random_randint_size in *.
  assert (forall g1 : G,
            (if py_eq (method cfg) "multi_hash"
             then let '(r, g2) :=
                    if permutations cfg <? 0
                    then (Raise NegativeDimensions, g1)
                    else let '(a, g') :=
                           draws (Z.to_nat (permutations cfg)) g1
                         in (Ok a, g')
                  in (let* a := r in Ok (SeedArray a), g2)
             else let '(s, g2) := next_int g1 in (Ok (SeedScalar s), g2)).2
            = if py_eq (method cfg) "multi_hash"
              then (draws (Z.to_nat (permutations cfg)) g1).2
              else (next_int g1).2) as Hdraw.
  { intros g1. destruct (py_eq _ _); [|by destruct (next_int g1)].
    destruct (Z.ltb_spec (permutations cfg) 0); [lia|].
    by destruct (draws _ g1). }
  destruct (seed cfg) as [s|]; [|apply Hdraw].
  destruct (s =? 0); [apply Hdraw|].
  destruct (Z.ltb_spec s 0); [lia|].
  destruct (Z.ltb_spec (2 ^ 32 - 1) s); [lia|]. apply Hdraw.
Qed.

Lemma generator_after_construction_witness :
  let cfg := {| n_gram := 9; n_gram_type := "char"; permutations := 3;
                hash_bits := 64; method := literal "multi_hash";
                seed := Some 42; n_jobs := 1 |} in
  (__init__ (Texts [lit "hi"]) cfg 1).2
  = if py_eq (method cfg) "multi_hash"
    then (draws (Z.to_nat (permutations cfg)) (seeded_state cfg 1)).2
    else (next_int (seeded_state cfg 1)).2.
Proof.
  cbv zeta. apply generator_after_construction;
    [reflexivity|by vm_compute|simpl; lia].
Defined.

(** ** The multi-hash strategy with few shingles *)

(** X21.  The multi-hash strategy, when the method is the interned literal
    ['multi_hash'], has no permutations-vs-shingles error.  With a
    well-formed configuration, on a corpus whose documents all have a
    non-empty shingle sequence with no more shingles than [permutations],
    the construction succeeds, and the row of every document is its
    multi-hash signature, made of [permutations] integers. *)
Theorem multi_hash_tolerates_permutations {G : Type} `{NumpyRandom G}
    (text : texts) (cfg : config) (g : G) :
  well_configured cfg ->
  py_is (method cfg) "multi_hash" = true ->
  Forall (fun d => shingles_of cfg d <> []
                   /\ Py.len (shingles_of cfg d) <= permutations cfg)
    (documents text) ->
  exists obj,
    (__init__ text cfg g).1 = Ok obj
    /\ Forall2
         (fun d row =>
            thread_multi_hash (shingles_of cfg d) (_hash_seeds obj)
              (hash_bits cfg) = Ok row
            /\ Z.of_nat (length row) = permutations cfg
            /\ Forall is_Some row)
         (documents text) (signatures obj).
Proof.
  intros (Hvalid & Hseed & Hperm & Hjobs) His Hdocs.
  pose proof (py_is_eq _ _ His) as Heq.
  rewrite init_validated, draw_hash_seeds_multi by auto. simpl.
  rewrite His, min_hash_multi by auto.
  set (a := (draws _ _).1).
  assert (length a = Z.to_nat (permutations cfg)) as Hlen
    by apply draws_length.
  rewrite collect_yield_text
    by (eapply Forall_impl; [done|by intros d [Hne _]]).
  simpl.
  destruct (decide (a = [])) as [Ha|Ha].
  - destruct Hdocs as [|d texts [Hne Hle] _].
    + simpl. eexists. split; [done|]. constructor.
    + exfalso. rewrite Ha in Hlen. simpl in Hlen.
      destruct (shingles_of cfg d); [done|].
      unfold Py.len in Hle. simpl in Hle. lia.
  - rewrite collect_thread_multi_hash by done. simpl.
    eexists. split; [done|]. simpl.
    apply Forall2_fmap_r, Forall_Forall2_diag.
    eapply Forall_impl; [exact Hdocs|]. intros d [Hne Hle]. simpl.
    destruct (thread_multi_hash_total (shingles_of cfg d) a (hash_bits cfg))
      as (row & Hrow & Hrowlen & Hsome); [done..|].
    rewrite thread_multi_hash_array in Hrow |- * by done.
    injection Hrow as <-. split; [done|]. split; [|done].
    rewrite length_map, Hlen. specialize (Hperm Heq). lia.
Qed.

Lemma multi_hash_tolerates_permutations_witness :
  let cfg := {| n_gram := 3; n_gram_type := "char"; permutations := 6;
                hash_bits := 32; method := literal "multi_hash";
                seed := Some 42; n_jobs := 2 |} in
  let text := Texts [lit "abcde"; lit "minhash"] in
  exists obj,
    (__init__ text cfg 1).1 = Ok obj
    /\ Forall2
         (fun d row =>
            thread_multi_hash (shingles_of cfg d) (_hash_seeds obj)
              (hash_bits cfg) = Ok row
            /\ Z.of_nat (length row) = permutations cfg
            /\ Forall is_Some row)
         (documents text) (signatures obj).
Proof.
  cbv zeta. apply multi_hash_tolerates_permutations.
  - split; [reflexivity|]. split; [by vm_compute|].
    split; intros ?; simpl; lia.
  - reflexivity.
  - simpl. repeat (apply List.Forall_cons; [split; by vm_compute|]).
    apply List.Forall_nil.
Defined.
